(** * Arc Raiders Config Tuner: a shallow embedding of [src/arc_tuner.py]

    The configuration core of the tuner ([SettingDefinition],
    [SETTINGS_DEFINITIONS] and [ConfigManager]) embedded in Rocq.

    Modelling conventions.
    - Python [str] is [text], a list of characters; a character is an
      [ascii] read as the Unicode code point U+0000..U+00FF of the same
      number (Latin-1), so that [str.strip], [str.lower] and the regex
      class [\w] are modelled exactly on that range.
    - A Python [dict] is an association list kept in insertion order
      (Python dicts preserve it and [write_config] prints in that order);
      assignment [d[k] = v] updates in place or appends ([dict_set]).
    - The file system is a record of functions: file contents, which
      paths are directories, which directories are writable, and the
      [Path.resolve] map.  Exceptions are the constructors of [exn]. *)

From Stdlib Require Import List Ascii String Bool Arith Lia.
Import ListNotations.

Abbreviation text := (list ascii).

(** String literals of the development. *)
Definition t (s : string) : text := list_ascii_of_string s.

Definition code (c : ascii) : nat := nat_of_ascii c.
Definition chr (n : nat) : ascii := ascii_of_nat n.

Definition text_eqb (a b : text) : bool :=
  if list_eq_dec ascii_dec a b then true else false.

Definition char_eqb (a b : ascii) : bool := Ascii.eqb a b.

(** [str.isspace] on U+0000..U+00FF. *)
Definition is_space (c : ascii) : bool :=
  let n := code c in
  ((9 <=? n) && (n <=? 13)) || ((28 <=? n) && (n <=? 32)) || (n =? 133) || (n =? 160).

(** The regex class [\w] of a [str] pattern on U+0000..U+00FF:
    [0-9A-Za-z_] and the Latin-1 letters and numerals. *)
Definition is_word (c : ascii) : bool :=
  let n := code c in
  ((48 <=? n) && (n <=? 57)) || ((65 <=? n) && (n <=? 90)) || (n =? 95)
  || ((97 <=? n) && (n <=? 122)) || (n =? 170) || (n =? 178) || (n =? 179)
  || (n =? 181) || (n =? 185) || (n =? 186) || ((188 <=? n) && (n <=? 190))
  || ((192 <=? n) && (n <=? 214)) || ((216 <=? n) && (n <=? 246))
  || ((248 <=? n) && (n <=? 255)).

(** [str.lower] on U+0000..U+00FF. *)
Definition lower_char (c : ascii) : ascii :=
  let n := code c in
  if ((65 <=? n) && (n <=? 90)) || ((192 <=? n) && (n <=? 214)) || ((216 <=? n) && (n <=? 222))
  then chr (n + 32) else c.

Definition lower (s : text) : text := map lower_char s.

Fixpoint lstrip (s : text) : text :=
  match s with
  | [] => []
  | c :: r => if is_space c then lstrip r else s
  end.

Definition rstrip (s : text) : text := rev (lstrip (rev s)).

(** [str.strip()]. *)
Definition strip (s : text) : text := rstrip (lstrip s).

Definition startswith (c : ascii) (s : text) : bool :=
  match s with [] => false | d :: _ => char_eqb c d end.

Definition endswith (c : ascii) (s : text) : bool := startswith c (rev s).

Definition contains (c : ascii) (s : text) : bool := existsb (char_eqb c) s.

(** [s.partition(c)] when [c] occurs: the part before the first [c] and
    the part after it. *)
Fixpoint partition (c : ascii) (s : text) : text * text :=
  match s with
  | [] => ([], [])
  | d :: r => if char_eqb c d then ([], r)
              else let (a, b) := partition c r in (d :: a, b)
  end.

Definition NL : ascii := chr 10.
Definition CR : ascii := chr 13.
Definition EQ : ascii := "="%char.
Definition LBR : ascii := "["%char.
Definition RBR : ascii := "]"%char.

(** ** Python dicts *)

Section Dict.
Context {V : Type}.

Fixpoint dict_get (d : list (text * V)) (k : text) : option V :=
  match d with
  | [] => None
  | (k', v) :: r => if text_eqb k k' then Some v else dict_get r k
  end.

(** [d[k] = v]: overwrite in place, or append a new entry. *)
Fixpoint dict_set (d : list (text * V)) (k : text) (v : V) : list (text * V) :=
  match d with
  | [] => [(k, v)]
  | (k', v') :: r => if text_eqb k k' then (k', v) :: r else (k', v') :: dict_set r k v
  end.

Definition dict_mem (d : list (text * V)) (k : text) : bool :=
  match dict_get d k with Some _ => true | None => false end.

End Dict.

(** ** The setting catalog *)

Inductive setting_type := Choice | Boolean | Number | Slider.

(** [SettingDefinition]; [default] holds [str(default)], the only form in
    which the manager uses it.  The [description], [options], [min_val]
    and [max_val] fields are read by the GUI only and are left out. *)
Record SettingDefinition := mkSettingDefinition {
  key : text;
  display_name : text;
  stype : setting_type;
  section : text;
  category : text;
  default : text;
  performance_impact : text
}.

Definition mkdef (k dn : string) (ty : setting_type) (sec cat dflt imp : string)
  : SettingDefinition :=
  mkSettingDefinition (t k) (t dn) ty (t sec) (t cat) (t dflt) (t imp).

Definition entry (k : string) (d : SettingDefinition) : text * SettingDefinition := (t k, d).

Definition SETTINGS_DEFINITIONS : list (text * SettingDefinition) := [
  entry "ResolutionScalingMethod" (mkdef "ResolutionScalingMethod" "Upscaling Technology" Choice "/Script/EmbarkUserSettings.EmbarkGameUserSettings" "Upscaling" "DLSS" "Very High");
  entry "DLSSMode" (mkdef "DLSSMode" "DLSS Quality Mode" Choice "/Script/EmbarkUserSettings.EmbarkGameUserSettings" "Upscaling" "Quality" "Very High");
  entry "DLSSModel" (mkdef "DLSSModel" "DLSS Model" Choice "/Script/EmbarkUserSettings.EmbarkGameUserSettings" "Upscaling" "Transformer" "Low");
  entry "XeSSMode" (mkdef "XeSSMode" "XeSS Quality Mode" Choice "/Script/EmbarkUserSettings.EmbarkGameUserSettings" "Upscaling" "Quality" "Very High");
  entry "FSR3Mode" (mkdef "FSR3Mode" "FSR 3 Quality Mode" Choice "/Script/EmbarkUserSettings.EmbarkGameUserSettings" "Upscaling" "Balanced" "Very High");
  entry "DLSSFrameGenerationMode" (mkdef "DLSSFrameGenerationMode" "DLSS Frame Generation" Choice "/Script/EmbarkUserSettings.EmbarkGameUserSettings" "Frame Generation" "Off" "Very High");
  entry "FSR3FrameGenerationMode" (mkdef "FSR3FrameGenerationMode" "FSR 3 Frame Generation" Choice "/Script/EmbarkUserSettings.EmbarkGameUserSettings" "Frame Generation" "Off" "Very High");
  entry "NvReflexMode" (mkdef "NvReflexMode" "NVIDIA Reflex" Choice "/Script/EmbarkUserSettings.EmbarkGameUserSettings" "Latency" "Enabled" "Low");
  entry "ReflexLatewarpMode" (mkdef "ReflexLatewarpMode" "Reflex Frame Warp" Choice "/Script/EmbarkUserSettings.EmbarkGameUserSettings" "Latency" "Off" "Low");
  entry "bAntiLag2Enabled" (mkdef "bAntiLag2Enabled" "AMD Anti-Lag 2" Boolean "/Script/EmbarkUserSettings.EmbarkGameUserSettings" "Latency" "True" "Low");
  entry "RTXGIQuality" (mkdef "RTXGIQuality" "RTX Global Illumination" Choice "/Script/EmbarkUserSettings.EmbarkGameUserSettings" "Ray Tracing" "DynamicHigh" "Very High");
  entry "RTXGIResolutionQuality" (mkdef "RTXGIResolutionQuality" "RTX GI Resolution" Choice "/Script/EmbarkUserSettings.EmbarkGameUserSettings" "Ray Tracing" "3" "High");
  entry "FullscreenMode" (mkdef "FullscreenMode" "Fullscreen Mode" Choice "/Script/EmbarkUserSettings.EmbarkGameUserSettings" "Display" "1" "Low");
  entry "bUseVSync" (mkdef "bUseVSync" "VSync" Boolean "/Script/EmbarkUserSettings.EmbarkGameUserSettings" "Display" "False" "Medium");
  entry "FrameRateLimit" (mkdef "FrameRateLimit" "Frame Rate Limit" Number "/Script/EmbarkUserSettings.EmbarkGameUserSettings" "Display" "0" "Medium");
  entry "bUseHDRDisplayOutput" (mkdef "bUseHDRDisplayOutput" "HDR Output" Boolean "/Script/EmbarkUserSettings.EmbarkGameUserSettings" "Display" "False" "Low");
  entry "MotionBlurEnabled" (mkdef "MotionBlurEnabled" "Motion Blur" Boolean "/Script/EmbarkUserSettings.EmbarkGameUserSettings" "Visual Effects" "False" "Low");
  entry "LensDistortionEnabled" (mkdef "LensDistortionEnabled" "Lens Distortion" Boolean "/Script/EmbarkUserSettings.EmbarkGameUserSettings" "Visual Effects" "False" "Low");
  entry "sg.ViewDistanceQuality" (mkdef "sg.ViewDistanceQuality" "View Distance" Choice "ScalabilityGroups" "Quality Settings" "3" "Medium");
  entry "sg.ShadowQuality" (mkdef "sg.ShadowQuality" "Shadow Quality" Choice "ScalabilityGroups" "Quality Settings" "3" "High");
  entry "sg.TextureQuality" (mkdef "sg.TextureQuality" "Texture Quality" Choice "ScalabilityGroups" "Quality Settings" "3" "Low");
  entry "sg.EffectsQuality" (mkdef "sg.EffectsQuality" "Effects Quality" Choice "ScalabilityGroups" "Quality Settings" "3" "Medium");
  entry "sg.FoliageQuality" (mkdef "sg.FoliageQuality" "Foliage Quality" Choice "ScalabilityGroups" "Quality Settings" "3" "High");
  entry "sg.PostProcessQuality" (mkdef "sg.PostProcessQuality" "Post Processing" Choice "ScalabilityGroups" "Quality Settings" "3" "Low");
  entry "sg.ReflectionQuality" (mkdef "sg.ReflectionQuality" "Reflection Quality" Choice "ScalabilityGroups" "Quality Settings" "3" "Medium");
  entry "sg.ShadingQuality" (mkdef "sg.ShadingQuality" "Shading Quality" Choice "ScalabilityGroups" "Quality Settings" "3" "Medium");
  entry "sg.GlobalIlluminationQuality" (mkdef "sg.GlobalIlluminationQuality" "Global Illumination" Choice "ScalabilityGroups" "Quality Settings" "3" "Medium");
  entry "sg.AntiAliasingQuality" (mkdef "sg.AntiAliasingQuality" "Anti-Aliasing Quality" Choice "ScalabilityGroups" "Quality Settings" "3" "Low");
  entry "sg.ResolutionQuality" (mkdef "sg.ResolutionQuality" "Resolution Scale %" Slider "ScalabilityGroups" "Quality Settings" "100" "Very High");
  entry "bEnableMouseSmoothing" (mkdef "bEnableMouseSmoothing" "Mouse Smoothing" Boolean "/Script/Engine.InputSettings" "Competitive Settings" "False" "Low");
  entry "bViewAccelerationEnabled" (mkdef "bViewAccelerationEnabled" "Mouse Acceleration" Boolean "/Script/Engine.InputSettings" "Competitive Settings" "False" "Low");
  entry "bEnableMouseSmoothing_Engine" (mkdef "bEnableMouseSmoothing" "Engine Mouse Smoothing" Boolean "/Script/Engine.GameUserSettings" "Competitive Settings" "False" "Low");
  entry "r.DepthOfFieldQuality" (mkdef "r.DepthOfFieldQuality" "Depth of Field" Choice "SystemSettings" "Competitive Settings" "0" "Low");
  entry "r.BloomQuality" (mkdef "r.BloomQuality" "Bloom Quality" Choice "SystemSettings" "Competitive Settings" "0" "Low");
  entry "r.LensFlareQuality" (mkdef "r.LensFlareQuality" "Lens Flare" Choice "SystemSettings" "Competitive Settings" "0" "Low");
  entry "r.SceneColorFringe.Max" (mkdef "r.SceneColorFringe.Max" "Chromatic Aberration" Choice "SystemSettings" "Competitive Settings" "0" "Low");
  entry "r.Tonemapper.Sharpen" (mkdef "r.Tonemapper.Sharpen" "Sharpening" Slider "SystemSettings" "Competitive Settings" "0" "Low");
  entry "r.Tonemapper.GrainQuantization" (mkdef "r.Tonemapper.GrainQuantization" "Film Grain Quantization" Choice "SystemSettings" "Competitive Settings" "0" "Low");
  entry "r.Vignette.Quality" (mkdef "r.Vignette.Quality" "Vignette" Choice "SystemSettings" "Competitive Settings" "0" "Low");
  entry "r.OneFrameThreadLag" (mkdef "r.OneFrameThreadLag" "One Frame Thread Lag" Choice "SystemSettings" "Competitive Settings" "1" "Medium");
  entry "bSmoothFrameRate" (mkdef "bSmoothFrameRate" "Smooth Frame Rate" Boolean "/Script/Engine.Engine" "Competitive Settings" "True" "Low");
  entry "r.CreateShadersOnLoad" (mkdef "r.CreateShadersOnLoad" "Precompile Shaders on Load" Choice "SystemSettings" "Competitive Settings" "1" "Low");
  entry "r.Streaming.PoolSize" (mkdef "r.Streaming.PoolSize" "Texture Pool Size (MB)" Number "SystemSettings" "Competitive Settings" "4096" "Medium");
  entry "r.MaxAnisotropy" (mkdef "r.MaxAnisotropy" "Anisotropic Filtering" Choice "SystemSettings" "Competitive Settings" "16" "Low");
  entry "r.TextureStreaming" (mkdef "r.TextureStreaming" "Texture Streaming" Choice "SystemSettings" "Competitive Settings" "1" "Low");
  entry "AudioQualityLevel" (mkdef "AudioQualityLevel" "Audio Quality Level" Choice "/Script/EmbarkUserSettings.EmbarkGameUserSettings" "Competitive Settings" "3" "Low");
  entry "bEnableAudioSpatialisation" (mkdef "bEnableAudioSpatialisation" "Audio Spatialization" Boolean "/Script/EmbarkUserSettings.EmbarkGameUserSettings" "Competitive Settings" "True" "Low")
].

(** ** The world: file system and clock *)

(** A path as the tuple of its [Path.parts]. *)
Abbreviation path := (list text).

Definition path_eqb (p q : path) : bool :=
  if list_eq_dec (list_eq_dec ascii_dec) p q then true else false.

Record World := mkWorld {
  files : path -> option text;   (* contents of regular files *)
  is_dir : path -> bool;          (* existing directories *)
  writable : path -> bool;        (* directories one may create files in *)
  resolve : path -> path;         (* [Path.resolve] *)
  clock_stamp : text;             (* [datetime.now().strftime("%Y%m%d_%H%M%S")] *)
  clock_iso : text                (* [datetime.now().isoformat()] *)
}.

(** [Path.exists]. *)
Definition path_exists (w : World) (p : path) : bool :=
  match files w p with Some _ => true | None => is_dir w p end.

Definition parent (p : path) : path := removelast p.
Definition name (p : path) : text := last p [].

Definition set_file (w : World) (p : path) (c : option text) : World :=
  mkWorld (fun q => if path_eqb q p then c else files w q)
          (is_dir w) (writable w) (resolve w) (clock_stamp w) (clock_iso w).

(** [open(p, 'w')] followed by writing [c]; [None] when it raises.  The
    permission bits of an existing file are not modelled: an existing
    file counts as writable.  The general theorems that conclude a write
    succeeds assume the file is new; the existing files of the concrete
    worlds below are ordinary files of the user. *)
Definition write_file (w : World) (p : path) (c : text) : option World :=
  if is_dir w (parent p) && writable w (parent p) && negb (is_dir w p)
  then Some (set_file w p (Some c)) else None.

(** [shutil.copy2(src, dst)]; [None] when it raises (missing source,
    [SameFileError], unwritable destination). *)
Definition copy2 (w : World) (src dst : path) : option World :=
  match files w src with
  | None => None
  | Some c =>
      let dst' := if is_dir w dst then dst ++ [name src] else dst in
      if path_eqb (resolve w src) (resolve w dst') then None
      else write_file w dst' c
  end.

(** [Path.unlink()]. *)
Definition unlink (w : World) (p : path) : option World :=
  match files w p with
  | Some _ => if writable w (parent p) then Some (set_file w p None) else None
  | None => None
  end.

(** [dir / name] with [name] a [str]: split at ['/'], empty and ["."]
    parts dropped, a leading ['/'] restarting from the root. *)
Fixpoint split_slash (s : text) (cur : text) : list text :=
  match s with
  | [] => [rev cur]
  | c :: r => if char_eqb c "/"%char then rev cur :: split_slash r [] else split_slash r (c :: cur)
  end.

Definition path_join (dir : path) (s : text) : path :=
  let parts := filter (fun x => negb (text_eqb x []) && negb (text_eqb x (t "."))) (split_slash s []) in
  if startswith "/"%char s then t "/" :: parts else dir ++ parts.

(** ** [ConfigManager] *)

Abbreviation document := (list (text * list (text * text))).

Record ConfigManager := mkCM {
  world : World;
  config_path : option path;
  backup_dir : option path;
  profiles_dir : option path;
  current_config : document
}.

Definition with_world (st : ConfigManager) (w : World) : ConfigManager :=
  mkCM w (config_path st) (backup_dir st) (profiles_dir st) (current_config st).

Definition with_config (st : ConfigManager) (c : document) : ConfigManager :=
  mkCM (world st) (config_path st) (backup_dir st) (profiles_dir st) c.

Inductive exn := FileNotFoundError | ValueError.

Inductive result (A : Type) := Ret (a : A) | Raise (e : exn).
Arguments Ret {A} a.
Arguments Raise {A} e.

(** [get_setting]. *)
Definition get_setting (st : ConfigManager) (k : text) : option text :=
  match dict_get SETTINGS_DEFINITIONS k with
  | None => None
  | Some d =>
      let section_config := match dict_get (current_config st) (section d) with
                            | Some m => m | None => [] end in
      (* both branches of the [sg.] test are the same *)
      match dict_get section_config k with
      | Some v => Some v
      | None => Some (default d)
      end
  end.

(** [set_setting]. *)
Definition set_setting (st : ConfigManager) (k v : text) : bool * ConfigManager :=
  match dict_get SETTINGS_DEFINITIONS k with
  | None => (false, st)
  | Some d =>
      let c := current_config st in
      let c1 := if dict_mem c (section d) then c else dict_set c (section d) [] in
      let sec := match dict_get c1 (section d) with Some m => m | None => [] end in
      (true, with_config st (dict_set c1 (section d) (dict_set sec k v)))
  end.

(** ** [read_config] and [write_config] *)

(** Iterating over a file opened in text mode: universal newlines
    (["\n"], ["\r"] and ["\r\n"] end a line).  Each line is given without
    its terminator, which [strip()] removes in [read_config] anyway. *)
Fixpoint lines_aux (s : text) (cur : text) : list text :=
  match s with
  | [] => match cur with [] => [] | _ => [rev cur] end
  | c :: r =>
      if char_eqb c NL then rev cur :: lines_aux r []
      else if char_eqb c CR then
        match r with
        | d :: r' => if char_eqb d NL then rev cur :: lines_aux r' []
                     else rev cur :: lines_aux r []
        | [] => [rev cur]
        end
      else lines_aux r (c :: cur)
  end.

Definition lines (s : text) : list text := lines_aux s [].

(** One iteration of the loop of [read_config]; the state is
    [(config, current_section)]. *)
Definition process_line (st : document * option text) (raw : text) : document * option text :=
  let (config, current_section) := st in
  let line := strip raw in
  match line with
  | [] => st
  | _ =>
    if startswith LBR line && endswith RBR line then
      let s := removelast (tl line) in
      ((if dict_mem config s then config else dict_set config s []), Some s)
    else
      match current_section with
      | Some s =>
          (* [if '=' in line and current_section:] *)
          if contains EQ line && negb (text_eqb s []) then
            let (k, v) := partition EQ line in
            let sec := match dict_get config s with Some m => m | None => [] end in
            (dict_set config s (dict_set sec (strip k) (strip v)), current_section)
          else st
      | None => st
      end
  end.

Definition parse_config (contents : text) : document :=
  fst (fold_left process_line (lines contents) ([], None)).

(** [read_config]. *)
Definition read_config (st : ConfigManager) : result (document * ConfigManager) :=
  match config_path st with
  | None => Raise FileNotFoundError
  | Some p =>
      if negb (path_exists (world st) p) then Raise FileNotFoundError
      else match files (world st) p with
           | Some c => let config := parse_config c in Ret (config, with_config st config)
           | None => Raise FileNotFoundError (* [open] of a directory *)
           end
  end.

(** The text [write_config] writes. *)
Definition serialize (config : document) : text :=
  List.concat (map (fun '(sec, values) =>
     [LBR] ++ sec ++ [RBR; NL]
     ++ List.concat (map (fun '(k, v) => k ++ [EQ] ++ v ++ [NL]) values)
     ++ [NL]) config).

(** [Path.relative_to] succeeds. *)
Fixpoint is_prefix (p q : path) : bool :=
  match p, q with
  | [], _ => true
  | a :: p', b :: q' => text_eqb a b && is_prefix p' q'
  | _ :: _, [] => false
  end.

Fixpoint rfind_aux (c : ascii) (s : text) (i : nat) (acc : option nat) : option nat :=
  match s with
  | [] => acc
  | d :: r => rfind_aux c r (S i) (if char_eqb c d then Some i else acc)
  end.

(** [Path.suffix]. *)
Definition suffix (p : path) : text :=
  let n := name p in
  match rfind_aux "."%char n 0 None with
  | Some i => if (0 <? i) && (i <? List.length n - 1) then skipn i n else []
  | None => []
  end.

Definition forbidden_paths : list path :=
  [ [t "C:"; t "Windows"]; [t "C:"; t "Program Files"]; [t "C:"; t "Program Files (x86)"];
    [t "/"; t "etc"]; [t "/"; t "usr"]; [t "/"; t "bin"] ].

(** [validate_path]. *)
Definition validate_path (w : World) (p : path) : bool :=
  let resolved := resolve w p in
  forallb (fun forbidden =>
             if path_exists w forbidden then negb (is_prefix (resolve w forbidden) resolved)
             else true) forbidden_paths
  && (let sfx := lower (suffix p) in
      text_eqb sfx (t ".ini") || text_eqb sfx (t ".json") || text_eqb sfx []).

(** [write_config]. *)
Definition write_config (st : ConfigManager) (config : document) : result (bool * ConfigManager) :=
  match config_path st with
  | None => Raise ValueError                 (* "Config path not set" *)
  | Some p =>
      if negb (validate_path (world st) p) then Raise ValueError   (* "Invalid config path" *)
      else match write_file (world st) p (serialize config) with
           | Some w => Ret (true, with_config (with_world st w) config)
           | None => Ret (false, st)
           end
  end.

(** ** Hypotheses of the round-trip claim *)

Definition newline_free (s : text) : Prop := ~ In NL s /\ ~ In CR s.

(** No leading or trailing whitespace. *)
Definition no_edge_space (s : text) : Prop :=
  match s with
  | [] => True
  | c :: _ => is_space c = false /\ is_space (last s c) = false
  end.

Definition key_line (kv : text * text) : text := fst kv ++ EQ :: snd kv.

Definition entry_ok (kv : text * text) : Prop :=
  newline_free (fst kv) /\ no_edge_space (fst kv) /\ fst kv <> [] /\
  newline_free (snd kv) /\ no_edge_space (snd kv) /\
  (startswith LBR (key_line kv) && endswith RBR (key_line kv)) = false.

Definition section_ok (sv : text * list (text * text)) : Prop :=
  newline_free (fst sv) /\ no_edge_space (fst sv) /\
  NoDup (map fst (snd sv)) /\ Forall entry_ok (snd sv).

(** The documents of the round-trip claim: a Python dict of dicts (no
    repeated section or key) whose strings are newline-free, without
    edge whitespace, with non-empty keys, and no key line of the form
    [[...]]. *)
Definition roundtrip_doc (config : document) : Prop :=
  NoDup (map fst config) /\ Forall section_ok config.

(** The two further conditions the line format needs: section names are
    non-empty and keys contain no ['=']. *)
Definition format_doc (config : document) : Prop :=
  Forall (fun sv => fst sv <> [] /\ Forall (fun kv => ~ In EQ (fst kv)) (snd sv)) config.

(** The lines [write_config] writes, without their ["\n"]. *)
Definition write_lines (config : document) : list text :=
  flat_map (fun sv => (LBR :: fst sv ++ [RBR]) :: map key_line (snd sv) ++ [[]]) config.

(** ** Concrete managers used by the witnesses and counterexamples *)

(** A POSIX machine with a writable [/tmp] and [/etc] present; no files. *)
Definition tmp_world : World :=
  mkWorld (fun _ => None)
          (fun q => path_eqb q [t "/"; t "tmp"] || path_eqb q [t "/"; t "etc"])
          (fun q => path_eqb q [t "/"; t "tmp"])
          (fun q => q) (t "20251015_120000") (t "2025-10-15T12:00:00").

Definition tmp_manager (p : path) : ConfigManager :=
  mkCM tmp_world (Some p) None None [].

(** The same machine with a config file [/tmp/settings.txt], which the
    GUI's "All files" filter of the Browse dialog lets one pick. *)
Definition txt_world : World :=
  set_file tmp_world [t "/"; t "tmp"; t "settings.txt"] (Some (t "[S]
k=v
")).

(** ** Backups *)

(** [create_backup]. *)
Definition create_backup (st : ConfigManager) (tag : text) : option path * ConfigManager :=
  match config_path st with
  | None => (None, st)
  | Some p =>
      if negb (path_exists (world st) p) then (None, st)
      else match backup_dir st with
           | None => (None, st)
           | Some bd =>
               let timestamp := clock_stamp (world st) in
               let tag_suffix := match tag with [] => [] | _ => "_"%char :: tag end in
               let backup_name := t "GameUserSettings_" ++ timestamp ++ tag_suffix ++ t ".ini" in
               let backup_path := path_join bd backup_name in
               match copy2 (world st) p backup_path with
               | Some w => (Some backup_path, with_world st w)
               | None => (None, st)
               end
           end
  end.

(** [restore_backup]; the result of the [pre_restore] backup is not
    inspected.  [shutil.copy2(backup_path, None)] raises [TypeError],
    caught by the [except] clause. *)
Definition restore_backup (st : ConfigManager) (backup_path : path) : bool * ConfigManager :=
  if negb (path_exists (world st) backup_path) then (false, st)
  else if negb (validate_path (world st) backup_path) then (false, st)
  else let st1 := snd (create_backup st (t "pre_restore")) in
       match config_path st1 with
       | None => (false, st1)
       | Some p =>
           match copy2 (world st1) backup_path p with
           | Some w => (true, with_world st1 w)
           | None => (false, st1)
           end
       end.

(** A game directory [/g] holding the live config file [/g/<cfg>] and a
    saved copy [/g/old.ini], with the backup directory
    [/g/ArcTuner_Backups] (writable or not) and [/etc] present. *)
Definition game_dir : path := [t "/"; t "g"].
Definition game_backups : path := game_dir ++ [t "ArcTuner_Backups"].
Definition game_profiles : path := game_dir ++ [t "ArcTuner_Profiles"].
Definition old_ini : path := game_dir ++ [t "old.ini"].

Definition game_world (cfg : text) (backups_writable : bool) : World :=
  mkWorld (fun q => if path_eqb q (game_dir ++ [cfg]) then Some (t "[S]
k=live
")
                    else if path_eqb q old_ini then Some (t "[S]
k=old
") else None)
          (fun q => path_eqb q game_dir || path_eqb q game_backups
                    || path_eqb q game_profiles || path_eqb q [t "/"; t "etc"])
          (fun q => path_eqb q game_dir || (backups_writable && path_eqb q game_backups)
                    || path_eqb q game_profiles)
          (fun q => q) (t "20251015_120000") (t "2025-10-15T12:00:00").

Definition game_manager (cfg : text) (backups_writable : bool) : ConfigManager :=
  mkCM (game_world cfg backups_writable) (Some (game_dir ++ [cfg]))
       (Some game_backups) (Some game_profiles) [].

(** Claim C5 as written: [<basename of the live config>_<stamp>[_<tag>].ini]. *)
Definition claimed_backup_name (base timestamp tag : text) : text :=
  base ++ "_"%char :: timestamp ++ (match tag with [] => [] | _ => "_"%char :: tag end) ++ t ".ini".

(** ** Profiles *)

(** [re.sub(r'[^\w\-]', '_', name)]. *)
Definition sanitize (s : text) : text :=
  map (fun c => if is_word c || char_eqb c "-"%char then c else "_"%char) s.

(** [self.profiles_dir / f"{safe_name}.json"]. *)
Definition profile_path (pd : path) (nm : text) : path :=
  path_join pd (sanitize nm ++ t ".json").

(** *** The [json] module

    A JSON value as [json.load] builds it.  A number is kept as its
    lexeme: the profile code never stores or reads one. *)
Inductive jvalue :=
| JNull
| JTrue
| JFalse
| JNum (lexeme : text)
| JStr (s : text)
| JArr (items : list jvalue)
| JObj (members : list (text * jvalue)).

Definition QUOTE : ascii := "034"%char.
Definition BSLASH : ascii := "092"%char.
Definition LBRACE : ascii := "123"%char.
Definition RBRACE : ascii := "125"%char.
Definition LBRACKET : ascii := "091"%char.
Definition RBRACKET : ascii := "093"%char.
Definition COMMA : ascii := ","%char.
Definition COLON : ascii := ":"%char.
Definition SPACE : ascii := " "%char.

(** Lower-case hexadecimal digit of [n < 16]. *)
Definition hex_digit (n : nat) : ascii :=
  if n <? 10 then chr (48 + n) else chr (87 + n).

(** One character as [json.dumps] writes it with [ensure_ascii=True]
    ([py_encode_basestring_ascii]): the two-character escapes, and
    [\u00XX] for every other character outside [' '..'~']. *)
Definition encode_char (c : ascii) : text :=
  let n := code c in
  if n =? 92 then [BSLASH; BSLASH]
  else if n =? 34 then [BSLASH; QUOTE]
  else if n =? 8 then [BSLASH; "b"%char]
  else if n =? 12 then [BSLASH; "f"%char]
  else if n =? 10 then [BSLASH; "n"%char]
  else if n =? 13 then [BSLASH; "r"%char]
  else if n =? 9 then [BSLASH; "t"%char]
  else if (32 <=? n) && (n <=? 126) then [c]
  else [BSLASH; "u"%char; "0"%char; "0"%char; hex_digit (n / 16); hex_digit (n mod 16)].

Definition encode_str (s : text) : text := QUOTE :: flat_map encode_char s ++ [QUOTE].

(** ['\n' + ' ' * (indent * level)] with [indent=2]. *)
Definition nl_ind (lvl : nat) : text := NL :: repeat SPACE (2 * lvl).

Fixpoint join_items {A : Type} (f : A -> text) (sep : text) (l : list A) : text :=
  match l with
  | [] => []
  | [x] => f x
  | x :: r => f x ++ sep ++ join_items f sep r
  end.

(** [json.dump(obj, f, indent=2)] of a value at nesting level [lvl]. *)
Fixpoint dump (lvl : nat) (v : jvalue) : text :=
  match v with
  | JNull => t "null"
  | JTrue => t "true"
  | JFalse => t "false"
  | JNum n => n
  | JStr s => encode_str s
  | JArr [] => t "[]"
  | JArr l =>
      LBRACKET :: nl_ind (S lvl)
        ++ join_items (dump (S lvl)) (COMMA :: nl_ind (S lvl)) l
        ++ nl_ind lvl ++ [RBRACKET]
  | JObj [] => t "{}"
  | JObj m =>
      LBRACE :: nl_ind (S lvl)
        ++ join_items (fun '(k, x) => encode_str k ++ t ": " ++ dump (S lvl) x)
                      (COMMA :: nl_ind (S lvl)) m
        ++ nl_ind lvl ++ [RBRACE]
  end.

(** JSON whitespace: space, tab, newline, carriage return. *)
Definition is_ws (c : ascii) : bool :=
  let n := code c in (n =? 32) || (n =? 9) || (n =? 10) || (n =? 13).

Fixpoint skip_ws (s : text) : text :=
  match s with
  | [] => []
  | c :: r => if is_ws c then skip_ws r else s
  end.

Definition hex_value (c : ascii) : option nat :=
  let n := code c in
  if (48 <=? n) && (n <=? 57) then Some (n - 48)
  else if (97 <=? n) && (n <=? 102) then Some (n - 87)
  else if (65 <=? n) && (n <=? 70) then Some (n - 55)
  else None.

Definition hex4 (a b c d : ascii) : option nat :=
  match hex_value a, hex_value b, hex_value c, hex_value d with
  | Some w, Some x, Some y, Some z => Some (((w * 16 + x) * 16 + y) * 16 + z)
  | _, _, _, _ => None
  end.

(** The one-character escapes after a backslash. *)
Definition unescape (e : ascii) : option ascii :=
  let n := code e in
  if n =? 34 then Some QUOTE
  else if n =? 92 then Some BSLASH
  else if n =? 47 then Some "/"%char
  else if n =? 98 then Some (chr 8)
  else if n =? 102 then Some (chr 12)
  else if n =? 110 then Some (chr 10)
  else if n =? 114 then Some (chr 13)
  else if n =? 116 then Some (chr 9)
  else None.

Definition cons_fst (c : ascii) (o : option (text * text)) : option (text * text) :=
  match o with Some (x, r) => Some (c :: x, r) | None => None end.

(** [scanstring] with [strict=True], from just after the opening quote:
    the decoded string and the text after the closing quote.  A raw
    control character is an error.  A [\uXXXX] escape above U+00FF,
    surrogate pairs included, has no character in this model and is
    refused. *)
Fixpoint parse_str (s : text) : option (text * text) :=
  match s with
  | [] => None
  | c :: r =>
      if char_eqb c QUOTE then Some ([], r)
      else if char_eqb c BSLASH then
        match r with
        | [] => None
        | e :: r2 =>
            match unescape e with
            | Some d => cons_fst d (parse_str r2)
            | None =>
                if char_eqb e "u"%char then
                  match r2 with
                  | a :: b :: c' :: d :: r3 =>
                      match hex4 a b c' d with
                      | Some n => if n <? 256 then cons_fst (chr n) (parse_str r3) else None
                      | None => None
                      end
                  | _ => None
                  end
                else None
            end
        end
      else if code c <? 32 then None
      else cons_fst c (parse_str r)
  end.

Definition is_digit (c : ascii) : bool := (48 <=? code c) && (code c <=? 57).

Fixpoint take_digits (s : text) : text * text :=
  match s with
  | c :: r => if is_digit c then let (d, r') := take_digits r in (c :: d, r') else ([], s)
  | [] => ([], [])
  end.

(** [NUMBER_RE]: an optional minus, [0] or a nonzero digit and more
    digits, an optional [.] with digits, an optional exponent [e] or [E]
    with an optional sign and digits. *)
Definition lex_number (s : text) : option (text * text) :=
  let '(sg, s1) := match s with
                   | c :: r => if char_eqb c "-"%char then ([c], r) else ([], s)
                   | [] => ([], s)
                   end in
  let ip := match s1 with
            | c :: r => if char_eqb c "0"%char then Some ([c], r)
                        else if is_digit c then
                          let (d, r') := take_digits r in Some (c :: d, r')
                        else None
            | [] => None
            end in
  match ip with
  | None => None
  | Some (i, s2) =>
      let '(fr, s3) := match s2 with
                       | p :: d :: r => if char_eqb p "."%char && is_digit d
                                        then let (ds, r') := take_digits (d :: r) in (p :: ds, r')
                                        else ([], s2)
                       | _ => ([], s2)
                       end in
      let '(ex, s4) := match s3 with
                       | e :: r =>
                           if char_eqb e "e"%char || char_eqb e "E"%char then
                             let '(es, r1) := match r with
                                              | c :: r' => if char_eqb c "+"%char || char_eqb c "-"%char
                                                           then ([c], r') else ([], r)
                                              | [] => ([], r)
                                              end in
                             match r1 with
                             | d :: _ => if is_digit d then let (ds, r2) := take_digits r1 in (e :: es ++ ds, r2)
                                         else ([], s3)
                             | [] => ([], s3)
                             end
                           else ([], s3)
                       | [] => ([], s3)
                       end in
      Some (sg ++ i ++ fr ++ ex, s4)
  end.

(** [scan_once], [JSONObject] and [JSONArray] of the [json] decoder.  The
    [fuel] only bounds the recursion: each call consumes a unit, and
    [json_loads] gives [2 * len(s) + 1], more than any input needs.
    Objects are built with [dict(pairs)]: a repeated key keeps its first
    position and its last value. *)
Fixpoint parse_value (fuel : nat) (s : text) {struct fuel} : option (jvalue * text) :=
  match fuel with
  | 0 => None
  | S f =>
      match s with
      | [] => None
      | c :: r =>
          if char_eqb c QUOTE then
            match parse_str r with Some (x, r') => Some (JStr x, r') | None => None end
          else if char_eqb c LBRACE then
            match skip_ws r with
            | d :: r' => if char_eqb d QUOTE then parse_members f r' []
                         else if char_eqb d RBRACE then Some (JObj [], r')
                         else None
            | [] => None
            end
          else if char_eqb c LBRACKET then
            match skip_ws r with
            | d :: r' => if char_eqb d RBRACKET then Some (JArr [], r')
                         else parse_elems f (d :: r') []
            | [] => None
            end
          else if text_eqb (firstn 4 s) (t "null") then Some (JNull, skipn 4 s)
          else if text_eqb (firstn 4 s) (t "true") then Some (JTrue, skipn 4 s)
          else if text_eqb (firstn 5 s) (t "false") then Some (JFalse, skipn 5 s)
          else match lex_number s with
               | Some (n, r') => Some (JNum n, r')
               | None =>
                   if text_eqb (firstn 3 s) (t "NaN") then Some (JNum (t "NaN"), skipn 3 s)
                   else if text_eqb (firstn 8 s) (t "Infinity") then Some (JNum (t "Infinity"), skipn 8 s)
                   else if text_eqb (firstn 9 s) (t "-Infinity") then Some (JNum (t "-Infinity"), skipn 9 s)
                   else None
               end
      end
  end
with parse_members (fuel : nat) (s : text) (acc : list (text * jvalue)) {struct fuel}
  : option (jvalue * text) :=
  match fuel with
  | 0 => None
  | S f =>
      match parse_str s with
      | None => None
      | Some (k, r) =>
          match skip_ws r with
          | d :: r1 =>
              if char_eqb d COLON then
                match parse_value f (skip_ws r1) with
                | None => None
                | Some (v, r2) =>
                    let acc' := dict_set acc k v in
                    match skip_ws r2 with
                    | e :: r3 =>
                        if char_eqb e RBRACE then Some (JObj acc', r3)
                        else if char_eqb e COMMA then
                          match skip_ws r3 with
                          | g :: r4 => if char_eqb g QUOTE then parse_members f r4 acc' else None
                          | [] => None
                          end
                        else None
                    | [] => None
                    end
                end
              else None
          | [] => None
          end
      end
  end
with parse_elems (fuel : nat) (s : text) (acc : list jvalue) {struct fuel}
  : option (jvalue * text) :=
  match fuel with
  | 0 => None
  | S f =>
      match parse_value f s with
      | None => None
      | Some (v, r) =>
          match skip_ws r with
          | e :: r1 =>
              if char_eqb e RBRACKET then Some (JArr (acc ++ [v]), r1)
              else if char_eqb e COMMA then parse_elems f (skip_ws r1) (acc ++ [v])
              else None
          | [] => None
          end
      end
  end.

(** [json.loads]; [None] when it raises [JSONDecodeError] ("Expecting
    value", "Extra data", ...). *)
Definition json_loads (s : text) : option jvalue :=
  match parse_value (S (2 * List.length s)) (skip_ws s) with
  | Some (v, r) => match skip_ws r with [] => Some v | _ => None end
  | None => None
  end.

(** Whether [s] holds the six characters [\uXXXX] of an escape above
    U+00FF, which [json.load] decodes but [parse_str] refuses.  Text
    without them that [json_loads] refuses, [json.load] refuses too. *)
Fixpoint has_wide_escape (s : text) : bool :=
  match s with
  | [] => false
  | c :: r =>
      match r with
      | e :: a :: b :: c' :: d :: _ =>
          char_eqb c BSLASH && char_eqb e "u"%char
          && match hex4 a b c' d with Some n => 256 <=? n | None => false end
      | _ => false
      end || has_wide_escape r
  end.

(** A [Dict[str, Dict[str, str]]] as a JSON value. *)
Definition jdoc (c : document) : jvalue :=
  JObj (map (fun '(sec, kv) => (sec, JObj (map (fun '(k, v) => (k, JStr v)) kv))) c).

(** A [Dict[str, Dict[str, str]]]: no key twice, at either level. *)
Definition doc_wf (c : document) : Prop :=
  NoDup (map fst c) /\ Forall (fun sk => NoDup (map fst (snd sk))) c.

(** [dump lvl v] starts with a non-blank character, and the parser reads
    it back from any text it is followed by. *)
Definition dump_ok (lvl : nat) (v : jvalue) : Prop :=
  (exists c r, dump lvl v = c :: r /\ is_ws c = false)
  /\ forall F rest, 2 * List.length (dump lvl v ++ rest) < F ->
                    parse_value F (dump lvl v ++ rest) = Some (v, rest).

(** The text of one member ["key": value] of an object at level [lvl]. *)
Definition member_text (lvl : nat) (kv : text * jvalue) : text :=
  let '(k, x) := kv in encode_str k ++ t ": " ++ dump (S lvl) x.

Definition more_members (lvl : nat) (m : list (text * jvalue)) : text :=
  match m with
  | [] => []
  | _ => COMMA :: nl_ind (S lvl) ++ join_items (member_text lvl) (COMMA :: nl_ind (S lvl)) m
  end.

(** [save_profile]; the [Path] [profiles_dir] is always truthy once set. *)
Definition save_profile (st : ConfigManager) (nm : text) (config : document) : bool * ConfigManager :=
  match profiles_dir st with
  | None => (false, st)
  | Some pd =>
      let pp := profile_path pd nm in
      if negb (validate_path (world st) pp) then (false, st)
      else
        let profile_data := JObj [(t "name", JStr nm);
                                  (t "created", JStr (clock_iso (world st)));
                                  (t "config", jdoc config)] in
        match write_file (world st) pp (dump 0 profile_data) with
        | Some w => (true, with_world st w)
        | None => (false, st)
        end
  end.

(** [load_profile]: [data.get('config')], where [None] is Python's
    [None] (a missing key or a JSON [null]) and every exception (no
    file, a directory, malformed JSON, [data] not a [dict]) is caught. *)
Definition load_profile (st : ConfigManager) (nm : text) : option jvalue :=
  match profiles_dir st with
  | None => None
  | Some pd =>
      let pp := profile_path pd nm in
      if negb (path_exists (world st) pp) then None
      else match files (world st) pp with
           | None => None
           | Some content =>
               match json_loads content with
               | Some (JObj data) =>
                   match dict_get data (t "config") with
                   | Some JNull => None
                   | Some v => Some v
                   | None => None
                   end
               | _ => None
               end
           end
  end.

(** [delete_profile]. *)
Definition delete_profile (st : ConfigManager) (nm : text) : bool * ConfigManager :=
  match profiles_dir st with
  | None => (false, st)
  | Some pd =>
      let pp := profile_path pd nm in
      if path_exists (world st) pp then
        match unlink (world st) pp with
        | Some w => (true, with_world st w)
        | None => (false, st)
        end
      else (false, st)
  end.

(** Claim C6 as written: every character outside [[A-Za-z0-9_-]] becomes
    ['_']. *)
Definition claimed_sanitize (s : text) : text :=
  map (fun c => let n := code c in
                if ((48 <=? n) && (n <=? 57)) || ((65 <=? n) && (n <=? 90))
                   || ((97 <=? n) && (n <=? 122)) || (n =? 95) || (n =? 45)
                then c else "_"%char) s.

(** A profile file as [save_profile] writes it. *)
Definition profile_file (nm created : text) (config : document) : text :=
  dump 0 (JObj [(t "name", JStr nm); (t "created", JStr created); (t "config", jdoc config)]).

(** A manager whose profile directory [/g/ArcTuner_Profiles] is read-only
    and already holds the profile ["Test Profile"] of an earlier day. *)
Definition ro_profiles_manager : ConfigManager :=
  mkCM (mkWorld (fun q => if path_eqb q (game_profiles ++ [t "Test_Profile.json"])
                          then Some (profile_file (t "Test Profile") (t "2025-10-01T09:00:00")
                                                  [(t "Test", [(t "key", t "old_value")])])
                          else None)
                (fun q => path_eqb q game_dir || path_eqb q game_profiles)
                (fun _ => false) (fun q => q) (t "20251015_120000") (t "2025-10-15T12:00:00"))
       None None (Some game_profiles) [].

(** ** Creating the manager: [__init__] and [initialize] *)

(** [ConfigManager()]: no paths and an empty [current_config]. *)
Definition new_ConfigManager (w : World) : ConfigManager := mkCM w None None None [].

(** [ConfigManager.DEFAULT_CONFIG_PATH], from the parts of
    [Path(os.environ.get('LOCALAPPDATA', ''))]. *)
Definition DEFAULT_CONFIG_PATH (localappdata : path) : path :=
  localappdata ++ [t "PioneerGame"; t "Saved"; t "Config"; t "WindowsClient";
                   t "GameUserSettings.ini"].

(** A new directory [p], made by the program and so writable by it. *)
Definition add_dir (w : World) (p : path) : World :=
  mkWorld (files w) (fun q => path_eqb q p || is_dir w q) (fun q => path_eqb q p || writable w q)
          (resolve w) (clock_stamp w) (clock_iso w).

(** The outcomes of [os.mkdir(p)]: made, [FileExistsError],
    [FileNotFoundError] (no parent), or another [OSError] (the parent is
    a file or cannot be written). *)
Inductive mkdir_outcome := Made (w : World) | Exists | ParentMissing | Refused.

Definition os_mkdir (w : World) (p : path) : mkdir_outcome :=
  if path_exists w p then Exists
  else if negb (path_exists w (parent p)) then ParentMissing
  else if is_dir w (parent p) && writable w (parent p) then Made (add_dir w p)
  else Refused.

(** [Path.mkdir(parents=True, exist_ok=True)]; [None] when it raises:
    a missing parent is made first, then [p] once more without
    [parents]; an existing [p] is accepted when it is a directory.  The
    recursion is on [parent p], which is shorter; [fuel] is its bound. *)
Fixpoint mkdir_parents (fuel : nat) (w : World) (p : path) {struct fuel} : option World :=
  match os_mkdir w p with
  | Made w' => Some w'
  | ParentMissing =>
      match fuel with
      | 0 => None
      | S f =>
          if path_eqb (parent p) p then None
          else match mkdir_parents f w (parent p) with
               | None => None
               | Some w1 =>
                   match os_mkdir w1 p with
                   | Made w2 => Some w2
                   | ParentMissing => None
                   | _ => if is_dir w1 p then Some w1 else None
                   end
               end
      end
  | _ => if is_dir w p then Some w else None
  end.

Definition mkdir_p (w : World) (p : path) : option World := mkdir_parents (List.length p) w p.

(** [initialize(config_path)]: the returned flag, or [None] when a
    [mkdir] raises out of it; the manager as it is afterwards in both
    cases.  A [Path] argument is always truthy, so [None] stands for the
    omitted argument. *)
Definition initialize (st : ConfigManager) (localappdata : path) (arg : option path)
  : option bool * ConfigManager :=
  let p := match arg with Some p => p | None => DEFAULT_CONFIG_PATH localappdata end in
  let st1 := mkCM (world st) (Some p) (backup_dir st) (profiles_dir st) (current_config st) in
  if negb (path_exists (world st) p) then (Some false, st1)
  else
    let bd := path_join (parent p) (t "ArcTuner_Backups") in
    let pd := path_join (parent p) (t "ArcTuner_Profiles") in
    let st2 := mkCM (world st) (Some p) (Some bd) (Some pd) (current_config st) in
    match mkdir_p (world st) bd with
    | None => (None, st2)
    | Some w1 =>
        match mkdir_p w1 pd with
        | None => (None, with_world st2 w1)
        | Some w2 => (Some true, with_world st2 w2)
        end
    end.

(** ** The [current_config] handlers of the GUI

    The Competitive Settings tab of [ArcTunerApp] edits
    [config_manager.current_config] directly.  Only that edit is
    embedded; the widgets, [unsaved_changes] and the refresh are not. *)

(** [del d[k]] for a key [k] of [d]. *)
Fixpoint dict_del {V : Type} (d : list (text * V)) (k : text) : list (text * V) :=
  match d with
  | [] => []
  | (k', v) :: r => if text_eqb k k' then r else (k', v) :: dict_del r k
  end.

(** [config[s][k]] when both keys are present. *)
Definition config_lookup (c : document) (s k : text) : option text :=
  match dict_get c s with Some m => dict_get m k | None => None end.

(** [self.competitive_settings_definitions]: the definitions of the
    category ["Competitive Settings"], in catalog order. *)
Definition competitive_settings_definitions : list SettingDefinition :=
  filter (fun d => text_eqb (category d) (t "Competitive Settings")) (map snd SETTINGS_DEFINITIONS).

(** [_is_setting_in_config]. *)
Definition is_setting_in_config (c : document) (d : SettingDefinition) : bool :=
  match c with
  | [] => false
  | _ => match dict_get c (section d) with
         | Some m => dict_mem m (key d)
         | None => false
         end
  end.

(** [_add_competitive_setting]. *)
Definition add_competitive_setting (c : document) (d : SettingDefinition) : document :=
  let c1 := if dict_mem c (section d) then c else dict_set c (section d) [] in
  let sec := match dict_get c1 (section d) with Some m => m | None => [] end in
  dict_set c1 (section d) (dict_set sec (key d) (default d)).

(** [_remove_competitive_setting]; the section stays, even when empty. *)
Definition remove_competitive_setting (c : document) (d : SettingDefinition) : document :=
  match dict_get c (section d) with
  | Some m => if dict_mem m (key d) then dict_set c (section d) (dict_del m (key d)) else c
  | None => c
  end.

(** The loop body of [_add_all_competitive_settings]: that of
    [_add_competitive_setting], guarded by [_is_setting_in_config]. *)
Definition add_step (c : document) (d : SettingDefinition) : document :=
  if negb (is_setting_in_config c d) then add_competitive_setting c d else c.

(** [_add_all_competitive_settings]; [confirmed] is the answer to its
    [askyesno] dialog. *)
Definition add_all_competitive_settings (confirmed : bool) (c : document) : document :=
  if negb confirmed then c
  else fold_left add_step competitive_settings_definitions c.

(** [_remove_all_competitive_settings]; its loop body is that of
    [_remove_competitive_setting]. *)
Definition remove_all_competitive_settings (confirmed : bool) (c : document) : document :=
  if negb confirmed then c
  else fold_left remove_competitive_setting competitive_settings_definitions c.

(** [_refresh_competitive_settings_tab]: the count [added_count] of its
    status line. *)
Definition added_count (c : document) : nat :=
  List.length (filter (is_setting_in_config c) competitive_settings_definitions).

(** The manager part of [_save_config]: the [pre_save] backup, whose
    result is only logged, then [set_setting] for each [(key, value)]
    taken from the widgets, then [write_config].  [None] for the early
    return when no config path is set. *)
Definition save_config (st : ConfigManager) (values : list (text * text))
  : option (result (bool * ConfigManager)) :=
  match config_path st with
  | None => None
  | Some _ =>
      let st1 := snd (create_backup st (t "pre_save")) in
      let st2 := fold_left (fun s kv => snd (set_setting s (fst kv) (snd kv))) values st1 in
      Some (write_config st2 (current_config st2))
  end.

(** A line [read_config] takes for a section header. *)
Definition is_header (raw : text) : bool :=
  let line := strip raw in
  match line with
  | [] => false
  | _ => startswith LBR line && endswith RBR line
  end.

(** ** Concrete worlds of the further properties *)

(** A game directory [/g] holding only the live config file; [/g] is
    writable and neither [ArcTuner_] directory exists yet. *)
Definition fresh_game_world : World :=
  mkWorld (fun q => if path_eqb q (game_dir ++ [t "GameUserSettings.ini"]) then Some (t "[S]
k=live
") else None)
          (fun q => path_eqb q game_dir) (fun q => path_eqb q game_dir)
          (fun q => q) (t "20251015_120000") (t "2025-10-15T12:00:00").

(** The same directory where a regular file is named [ArcTuner_Backups]. *)
Definition backups_clash_world : World :=
  set_file fresh_game_world game_backups (Some []).

(** A config with the competitive setting [bEnableMouseSmoothing] and
    one other key of its section. *)
Definition input_config : document :=
  [(t "/Script/Engine.InputSettings",
    [(t "bEnableMouseSmoothing", t "True"); (t "bViewAccelerationEnabled", t "False")])].

(** * Proofs *)

(** ** Equality helpers *)

Lemma text_eqb_eq a b : text_eqb a b = true <-> a = b.
Proof. unfold text_eqb; destruct (list_eq_dec ascii_dec a b); split; congruence. Qed.

Lemma text_eqb_refl a : text_eqb a a = true.
Proof. apply text_eqb_eq; reflexivity. Qed.

Lemma text_eqb_neq a b : a <> b -> text_eqb a b = false.
Proof. intro H; destruct (text_eqb a b) eqn:E; [apply text_eqb_eq in E; congruence|reflexivity]. Qed.

Lemma path_eqb_eq p q : path_eqb p q = true <-> p = q.
Proof. unfold path_eqb; destruct (list_eq_dec (list_eq_dec ascii_dec) p q); split; congruence. Qed.

(** ** Dict lemmas *)

Section DictFacts.
Context {V : Type}.

Lemma dict_get_set_same (d : list (text * V)) k v : dict_get (dict_set d k v) k = Some v.
Proof.
  induction d as [|[k' v'] r IH]; simpl.
  - rewrite text_eqb_refl; reflexivity.
  - destruct (text_eqb k k') eqn:E; simpl.
    + rewrite E; reflexivity.
    + rewrite E; exact IH.
Qed.

Lemma dict_get_set_other (d : list (text * V)) k k2 v :
  k2 <> k -> dict_get (dict_set d k v) k2 = dict_get d k2.
Proof.
  intro Hne; induction d as [|[k' v'] r IH]; simpl.
  - rewrite (text_eqb_neq _ _ Hne); reflexivity.
  - destruct (text_eqb k k') eqn:E; simpl.
    + apply text_eqb_eq in E; subst k'; rewrite (text_eqb_neq _ _ Hne); reflexivity.
    + rewrite IH; reflexivity.
Qed.

Lemma dict_get_none_notin (d : list (text * V)) k : dict_get d k = None <-> ~ In k (map fst d).
Proof.
  induction d as [|[k' v'] r IH]; simpl.
  - tauto.
  - destruct (text_eqb k k') eqn:E.
    + apply text_eqb_eq in E; subst; split; [discriminate|tauto].
    + rewrite IH; split; [|tauto].
      intros H [H1|H1]; [subst; rewrite text_eqb_refl in E; discriminate|tauto].
Qed.

Lemma dict_set_notin (d : list (text * V)) k v :
  dict_get d k = None -> dict_set d k v = d ++ [(k, v)].
Proof.
  induction d as [|[k' v'] r IH]; simpl; [reflexivity|].
  destruct (text_eqb k k'); [discriminate|].
  intro H; rewrite (IH H); reflexivity.
Qed.

Lemma dict_get_app_notin (d l : list (text * V)) k :
  dict_get d k = None -> dict_get (d ++ l) k = dict_get l k.
Proof.
  induction d as [|[k' v'] r IH]; simpl; [reflexivity|].
  destruct (text_eqb k k'); [discriminate|exact IH].
Qed.

Lemma dict_set_app_notin (d l : list (text * V)) k v :
  dict_get d k = None -> dict_set (d ++ l) k v = d ++ dict_set l k v.
Proof.
  induction d as [|[k' v'] r IH]; simpl; [reflexivity|].
  destruct (text_eqb k k'); [discriminate|].
  intro H; rewrite (IH H); reflexivity.
Qed.

End DictFacts.

(** * The setting catalog *)

(** Claim C1 (code bug).  The catalog violates key uniqueness: the
    entries at positions 29 and 31 ([bEnableMouseSmoothing] and
    [bEnableMouseSmoothing_Engine]) both carry the key field
    ["bEnableMouseSmoothing"], and the second one's key field differs
    from its dictionary key, which the repository's test
    [test_setting_definitions] asserts never happens. *)
Theorem catalog_key_not_unique :
  ~ NoDup (map (fun e => key (snd e)) SETTINGS_DEFINITIONS)
  /\ (exists d, dict_get SETTINGS_DEFINITIONS (t "bEnableMouseSmoothing_Engine") = Some d
                /\ key d = t "bEnableMouseSmoothing"
                /\ key d <> t "bEnableMouseSmoothing_Engine").
Proof.
  split.
  - intro H. rewrite NoDup_nth_error in H.
    assert (E : 29 = 31); [|discriminate].
    apply H; [vm_compute; lia | vm_compute; reflexivity].
  - eexists; split; [vm_compute; reflexivity|].
    split; [vm_compute; reflexivity|].
    vm_compute; discriminate.
Qed.

(** Every catalog entry does have a non-empty key field. *)
Lemma catalog_keys_nonempty :
  forallb (fun e => negb (text_eqb (key (snd e)) [])) SETTINGS_DEFINITIONS = true.
Proof. vm_compute; reflexivity. Qed.

(** Claim C3.  For a key of the catalog, [set_setting key v] succeeds
    and a following [get_setting key] returns [v]. *)
Theorem set_then_get_setting (st : ConfigManager) (k v : text) (d : SettingDefinition)
  (Hk : dict_get SETTINGS_DEFINITIONS k = Some d) :
  fst (set_setting st k v) = true /\ get_setting (snd (set_setting st k v)) k = Some v.
Proof.
  unfold set_setting; rewrite Hk; split; [reflexivity|].
  unfold get_setting; rewrite Hk; simpl.
  rewrite dict_get_set_same, dict_get_set_same; reflexivity.
Qed.

Lemma set_then_get_setting_witness :
  dict_get SETTINGS_DEFINITIONS (t "DLSSMode") <> None
  /\ get_setting (snd (set_setting (mkCM (mkWorld (fun _ => None) (fun _ => false) (fun _ => false)
                                     (fun p => p) [] []) None None None [])
                                  (t "DLSSMode") (t "Performance"))) (t "DLSSMode")
     = Some (t "Performance").
Proof.
  split; [vm_compute; discriminate|].
  destruct (dict_get SETTINGS_DEFINITIONS (t "DLSSMode")) as [d|] eqn:E;
    [|vm_compute in E; discriminate].
  exact (proj2 (set_then_get_setting _ _ (t "Performance") d E)).
Defined.

(** Claim C9.  For a key that has no catalog entry, [set_setting]
    returns [False] and leaves the manager, hence [current_config],
    unchanged. *)
Theorem set_setting_unknown_key (st : ConfigManager) (k v : text)
  (Hk : dict_get SETTINGS_DEFINITIONS k = None) :
  set_setting st k v = (false, st).
Proof. unfold set_setting; rewrite Hk; reflexivity. Qed.

Lemma set_setting_unknown_key_witness :
  dict_get SETTINGS_DEFINITIONS (t "NoSuchSetting") = None
  /\ set_setting (mkCM (mkWorld (fun _ => None) (fun _ => false) (fun _ => false)
                         (fun p => p) [] []) None None None [(t "S", [(t "k", t "v")])])
                 (t "NoSuchSetting") (t "1")
     = (false, mkCM (mkWorld (fun _ => None) (fun _ => false) (fun _ => false)
                         (fun p => p) [] []) None None None [(t "S", [(t "k", t "v")])]).
Proof.
  split; [vm_compute; reflexivity|].
  apply set_setting_unknown_key; vm_compute; reflexivity.
Defined.

(** * Reading back what [write_config] wrote *)

(** ** [strip] *)

Lemma lstrip_keep c r : is_space c = false -> lstrip (c :: r) = c :: r.
Proof. intro H; simpl; rewrite H; reflexivity. Qed.

Lemma last_app_nonempty (l m : text) z : m <> [] -> last (l ++ m) z = last m z.
Proof.
  intro Hm; induction l as [|a l IH]; [reflexivity|].
  simpl; rewrite IH; destruct l; simpl; [destruct m; [congruence|reflexivity]|].
  destruct (l ++ m) eqn:E; [apply app_eq_nil in E; destruct E; congruence|reflexivity].
Qed.

Lemma last_default (l : text) a b : l <> [] -> last l a = last l b.
Proof.
  intro H; induction l as [|x l IH]; [congruence|].
  destruct l; [reflexivity|]. simpl; apply IH; discriminate.
Qed.

Lemma header_no_edge sec : no_edge_space (LBR :: sec ++ [RBR]).
Proof.
  unfold no_edge_space; split; [reflexivity|].
  rewrite app_comm_cons, last_last; reflexivity.
Qed.

Lemma strip_no_edge s : no_edge_space s -> strip s = s.
Proof.
  destruct s as [|c r]; [reflexivity|]. intros [H1 H2].
  unfold strip; rewrite lstrip_keep by exact H1. unfold rstrip.
  assert (Hne : c :: r <> []) by discriminate.
  pose proof (app_removelast_last c Hne) as E. rewrite E.
  revert H2; generalize (last (c :: r) c) as d; intros d H2.
  generalize (removelast (c :: r)) as m; intro m.
  rewrite rev_app_distr; simpl; rewrite H2; simpl; rewrite rev_involutive; reflexivity.
Qed.

Lemma key_line_no_edge k v :
  k <> [] -> no_edge_space k -> no_edge_space v -> no_edge_space (key_line (k, v)).
Proof.
  unfold key_line, fst, snd. destruct k as [|c k']; [congruence|]. intros _ [Hc _] Hv.
  unfold no_edge_space. rewrite <- app_comm_cons. split; [exact Hc|].
  rewrite app_comm_cons.
  replace ((c :: k') ++ EQ :: v) with (((c :: k') ++ [EQ]) ++ v)
    by (rewrite <- app_assoc; reflexivity).
  destruct v as [|d v'].
  - rewrite app_nil_r, last_last; reflexivity.
  - rewrite last_app_nonempty by discriminate. destruct Hv as [_ Hv].
    rewrite (last_default _ c d) by discriminate; exact Hv.
Qed.

(** ** [partition] and [contains] *)

Lemma partition_first k v : ~ In EQ k -> partition EQ (k ++ EQ :: v) = (k, v).
Proof.
  induction k as [|c k IH]; intro H; cbn [app partition].
  - reflexivity.
  - assert (Hc : char_eqb EQ c = false).
    { unfold char_eqb; apply Ascii.eqb_neq; intro E; apply H; left; auto. }
    rewrite Hc, IH by (intro; apply H; right; auto); reflexivity.
Qed.

Lemma contains_key_line k v : contains EQ (k ++ EQ :: v) = true.
Proof.
  unfold contains; apply existsb_exists; exists EQ; split.
  - apply in_or_app; right; left; reflexivity.
  - reflexivity.
Qed.

(** ** Line splitting *)

Lemma lines_aux_line l rest cur :
  newline_free l -> lines_aux (l ++ NL :: rest) cur = (rev cur ++ l) :: lines_aux rest [].
Proof.
  revert cur; induction l as [|c l IH]; intros cur [Hn Hr]; simpl.
  - rewrite app_nil_r; reflexivity.
  - assert (E1 : char_eqb c NL = false)
      by (unfold char_eqb; apply Ascii.eqb_neq; intro E; apply Hn; left; auto).
    assert (E2 : char_eqb c CR = false)
      by (unfold char_eqb; apply Ascii.eqb_neq; intro E; apply Hr; left; auto).
    rewrite E1, E2, IH by (split; intro; [apply Hn|apply Hr]; right; auto).
    simpl; rewrite <- app_assoc; reflexivity.
Qed.

Lemma lines_join ls :
  Forall newline_free ls -> lines (List.concat (map (fun l => l ++ [NL]) ls)) = ls.
Proof.
  unfold lines; induction ls as [|l ls IH]; intro H; [reflexivity|].
  inversion H as [|? ? Hl Hls]; subst. simpl.
  rewrite <- app_assoc; simpl. rewrite lines_aux_line by exact Hl.
  rewrite IH by exact Hls; reflexivity.
Qed.

Lemma serialize_lines config :
  serialize config = List.concat (map (fun l => l ++ [NL]) (write_lines config)).
Proof.
  unfold serialize, write_lines.
  induction config as [|[sec values] r IH]; [reflexivity|].
  cbn [map flat_map List.concat fst snd].
  rewrite map_app, concat_app. f_equal; [|exact IH].
  assert (Hv : List.concat (map (fun '(k, v) => k ++ [EQ] ++ v ++ [NL]) values)
               = List.concat (map (fun l => l ++ [NL]) (map key_line values))).
  { induction values as [|[k v] vs IHv]; [reflexivity|].
    cbn [map List.concat]; rewrite IHv; unfold key_line, fst, snd.
    rewrite <- !app_assoc; reflexivity. }
  rewrite Hv. cbn [map List.concat]. rewrite map_app, concat_app.
  cbn [map List.concat]. simpl. rewrite <- !app_assoc. reflexivity.
Qed.

(** ** One line of [read_config] at a time *)

Lemma process_blank st : process_line st [] = st.
Proof. destruct st; reflexivity. Qed.

Lemma endswith_snoc c (l : text) d : endswith c (l ++ [d]) = char_eqb c d.
Proof. unfold endswith; rewrite rev_app_distr; reflexivity. Qed.

Lemma process_header acc cur sec :
  process_line (acc, cur) (LBR :: sec ++ [RBR])
  = (((if dict_mem acc sec then acc else dict_set acc sec []), Some sec) : document * option text).
Proof.
  unfold process_line. rewrite (strip_no_edge _ (header_no_edge sec)).
  rewrite app_comm_cons, endswith_snoc. cbn [startswith tl].
  replace (char_eqb LBR LBR && char_eqb RBR RBR) with true by reflexivity.
  rewrite <- app_comm_cons. cbn [tl]. rewrite removelast_last. reflexivity.
Qed.

Lemma process_key_line acc s pre k v :
  s <> [] -> dict_get acc s = None -> entry_ok (k, v) -> ~ In EQ k -> dict_get pre k = None ->
  process_line (acc ++ [(s, pre)], Some s) (key_line (k, v))
  = (acc ++ [(s, pre ++ [(k, v)])], Some s).
Proof.
  intros Hs Hacc [Hnk [Hek [Hk [Hnv [Hev Hhd]]]]] Heq Hpre.
  cbn [fst snd] in *.
  unfold process_line.
  rewrite (strip_no_edge (key_line (k, v))) by (apply key_line_no_edge; assumption).
  assert (Hp : partition EQ (key_line (k, v)) = (k, v)) by (apply partition_first; exact Heq).
  assert (Hc : contains EQ (key_line (k, v)) = true) by apply contains_key_line.
  revert Hhd Hp Hc.
  destruct (key_line (k, v)) as [|c0 r0] eqn:EL.
  - unfold key_line in EL; cbn [fst snd] in EL; destruct k; [congruence|discriminate].
  - intros Hhd Hp Hc. rewrite Hhd, Hc, Hp, (text_eqb_neq _ _ Hs).
    cbn [andb negb].
    rewrite (dict_get_app_notin _ _ _ Hacc). cbn [dict_get]. rewrite text_eqb_refl.
    rewrite (strip_no_edge k Hek), (strip_no_edge v Hev).
    rewrite (dict_set_app_notin _ _ _ _ Hacc). cbn [dict_set]. rewrite text_eqb_refl.
    rewrite (dict_set_notin _ _ _ Hpre). reflexivity.
Qed.

(** ** The whole file *)

Lemma fold_key_lines (s : text) (values : list (text * text)) (acc : document) pre :
  s <> [] -> dict_get acc s = None ->
  Forall entry_ok values -> Forall (fun kv => ~ In EQ (fst kv)) values ->
  NoDup (map fst (pre ++ values)) ->
  fold_left process_line (map key_line values) ((acc ++ [(s, pre)], Some s) : document * option text)
  = ((acc ++ [(s, pre ++ values)], Some s) : document * option text).
Proof.
  revert pre; induction values as [|[k v] vs IH]; intros pre Hs Hacc Hok Heq Hnd.
  - rewrite app_nil_r; reflexivity.
  - inversion Hok; inversion Heq; subst. cbn [map fold_left].
    rewrite process_key_line; auto.
    + replace (pre ++ (k, v) :: vs) with ((pre ++ [(k, v)]) ++ vs)
        by (rewrite <- app_assoc; reflexivity).
      apply IH; auto. rewrite <- app_assoc; exact Hnd.
    + apply dict_get_none_notin. rewrite map_app in Hnd. simpl in Hnd.
      apply NoDup_remove_2 in Hnd. intro; apply Hnd; apply in_or_app; left; assumption.
Qed.

Lemma fold_sections config acc cur :
  Forall section_ok config -> format_doc config ->
  NoDup (map fst (acc ++ config)) ->
  fst (fold_left process_line (write_lines config) (acc, cur)) = acc ++ config.
Proof.
  revert acc cur; induction config as [|[sec values] r IH]; intros acc cur Hok Hfmt Hnd.
  - rewrite app_nil_r; reflexivity.
  - inversion Hok as [|? ? [Hn [He [Hndk Hent]]] Hr]; subst.
    inversion Hfmt as [|? ? [Hsne Heqs] Hfr]; subst. cbn [fst snd] in *.
    assert (Hnot : dict_get acc sec = None).
    { apply dict_get_none_notin. rewrite map_app in Hnd; simpl in Hnd.
      apply NoDup_remove_2 in Hnd. intro; apply Hnd; apply in_or_app; left; assumption. }
    unfold write_lines; cbn [flat_map fst snd]. fold (write_lines r).
    rewrite fold_left_app. cbn [fold_left].
    rewrite process_header. unfold dict_mem; rewrite Hnot. rewrite (dict_set_notin _ _ _ Hnot).
    rewrite (fold_left_app process_line (map key_line values) [[]]).
    rewrite (fold_key_lines sec values acc []); auto.
    cbn [fold_left app]. rewrite process_blank.
    replace (acc ++ (sec, values) :: r) with ((acc ++ [(sec, values)]) ++ r)
      by (rewrite <- app_assoc; reflexivity).
    apply IH; auto. rewrite <- app_assoc; exact Hnd.
Qed.

Lemma newline_free_app a b : newline_free a -> newline_free b -> newline_free (a ++ b).
Proof.
  intros [Ha1 Ha2] [Hb1 Hb2]; split; intro H; apply in_app_or in H; tauto.
Qed.

Lemma newline_free_char c : c <> NL -> c <> CR -> newline_free [c].
Proof. intros H1 H2; split; intros [H|[]]; congruence. Qed.

Lemma write_lines_newline_free config :
  Forall section_ok config -> Forall newline_free (write_lines config).
Proof.
  intro H; apply Forall_forall; intros l Hl.
  unfold write_lines in Hl; apply in_flat_map in Hl as [[sec values] [Hin Hl]].
  rewrite Forall_forall in H; destruct (H _ Hin) as [Hn [_ [_ Hent]]]; cbn [fst snd] in *.
  destruct Hl as [Hl|Hl].
  - subst l. change (newline_free ([LBR] ++ sec ++ [RBR])).
    apply newline_free_app; [|apply newline_free_app; [exact Hn|]];
      apply newline_free_char; vm_compute; discriminate.
  - apply in_app_or in Hl as [Hl|[Hl|[]]].
    + apply in_map_iff in Hl as [[k v] [<- Hkv]].
      rewrite Forall_forall in Hent; destruct (Hent _ Hkv) as [Hnk [_ [_ [Hnv _]]]].
      unfold key_line; cbn [fst snd] in *. change (newline_free (k ++ [EQ] ++ v)).
      apply newline_free_app; [exact Hnk|apply newline_free_app; [|exact Hnv]].
      apply newline_free_char; vm_compute; discriminate.
    + subst l; split; intros [].
Qed.

Lemma parse_serialize config :
  roundtrip_doc config -> format_doc config -> parse_config (serialize config) = config.
Proof.
  intros [Hnd Hok] Hfmt. unfold parse_config.
  rewrite serialize_lines, lines_join by (apply write_lines_newline_free; exact Hok).
  apply (fold_sections config [] None); assumption.
Qed.

(** Discharges [roundtrip_doc] and [format_doc] on a concrete document. *)
Ltac solve_doc :=
  unfold roundtrip_doc, format_doc, section_ok, entry_ok, newline_free;
  repeat (match goal with
          | |- _ /\ _ => split
          | |- Forall _ _ => constructor
          | |- NoDup _ => constructor
          end);
  vm_compute;
  try tauto;
  try (intros; repeat match goal with H : _ \/ _ |- _ => destruct H end;
       first [discriminate | contradiction]);
  try reflexivity; try discriminate.

Lemma set_file_same w p c : files (set_file w p c) p = c.
Proof. simpl; rewrite (proj2 (path_eqb_eq p p) eq_refl); reflexivity. Qed.

Lemma write_file_spec w p c w' : write_file w p c = Some w' -> files w' p = Some c.
Proof.
  unfold write_file; destruct (_ && _); intro H; inversion H; subst; apply set_file_same.
Qed.

(** Claim C2 (corrected).  Writing a document with [write_config] and
    reading it back with [read_config] gives back the same document
    (hence the same section/key/value triples) for documents whose
    strings are newline-free and without edge whitespace, whose keys are
    non-empty and no key line has the form [[...]], provided moreover
    that keys contain no ['='] and section names are non-empty. *)
Theorem write_then_read_config (st st' : ConfigManager) (config : document)
  (Hdoc : roundtrip_doc config) (Hfmt : format_doc config)
  (Hw : write_config st config = Ret (true, st')) :
  exists st'', read_config st' = Ret (config, st'').
Proof.
  unfold write_config in Hw.
  destruct (config_path st) as [p|] eqn:Ep; [|discriminate].
  destruct (validate_path (world st) p); [|discriminate]. cbn [negb] in Hw.
  destruct (write_file (world st) p (serialize config)) as [w|] eqn:Ew; [|discriminate].
  inversion Hw; subst st'. clear Hw.
  apply write_file_spec in Ew.
  unfold read_config; cbn [config_path with_config with_world world]. rewrite Ep.
  unfold path_exists; rewrite Ew; cbn [negb].
  rewrite parse_serialize by assumption. eexists; reflexivity.
Qed.

Lemma write_then_read_config_witness :
  exists st', write_config (tmp_manager [t "/"; t "tmp"; t "GameUserSettings.ini"])
                [(t "Test", [(t "key", t "value")])] = Ret (true, st')
              /\ exists st'', read_config st' = Ret ([(t "Test", [(t "key", t "value")])], st'').
Proof.
  destruct (write_config (tmp_manager [t "/"; t "tmp"; t "GameUserSettings.ini"])
                [(t "Test", [(t "key", t "value")])]) as [[b st']|e] eqn:E;
    [|vm_compute in E; discriminate].
  destruct b; [|vm_compute in E; discriminate].
  exists st'; split; [reflexivity|].
  apply (write_then_read_config (tmp_manager [t "/"; t "tmp"; t "GameUserSettings.ini"]) st' _); [| |exact E].
  - solve_doc.
  - solve_doc.
Defined.

(** Claim C2: counterexample.  The document [{"S": {"a=b": "c"}}]
    satisfies every hypothesis of the claim, the write succeeds, and the
    file read back is [{"S": {"a": "b=c"}}]: a key containing ['='] is
    split at its first ['=']. *)
Lemma write_then_read_key_with_equals :
  roundtrip_doc [(t "S", [(t "a=b", t "c")])]
  /\ exists st', write_config (tmp_manager [t "/"; t "tmp"; t "GameUserSettings.ini"])
                              [(t "S", [(t "a=b", t "c")])] = Ret (true, st')
                /\ read_config st' = Ret ([(t "S", [(t "a", t "b=c")])],
                                          with_config st' [(t "S", [(t "a", t "b=c")])])
                /\ [(t "S", [(t "a", t "b=c")])] <> [(t "S", [(t "a=b", t "c")])].
Proof.
  split.
  - solve_doc.
  - eexists; split; [reflexivity|]. split; [reflexivity|]. vm_compute; discriminate.
Qed.

(** * Failures of [write_config] *)

(** The outcomes of [write_config]: it raises [ValueError] when the
    config path is unset or fails [validate_path]; otherwise it returns
    a flag: [True] with the document stored as [current_config], or
    [False] with the manager unchanged when the file cannot be
    written. *)
Theorem write_config_outcomes (st : ConfigManager) (config : document) :
  (config_path st = None -> write_config st config = Raise ValueError)
  /\ (forall p, config_path st = Some p -> validate_path (world st) p = false ->
        write_config st config = Raise ValueError)
  /\ (forall p, config_path st = Some p -> validate_path (world st) p = true ->
        (exists st', write_config st config = Ret (true, st') /\ current_config st' = config
                     /\ files (world st') p = Some (serialize config))
        \/ write_config st config = Ret (false, st)).
Proof.
  unfold write_config; split; [intro H; rewrite H; reflexivity|split].
  - intros p H Hv; rewrite H, Hv; reflexivity.
  - intros p H Hv; rewrite H, Hv; cbn [negb].
    destruct (write_file (world st) p (serialize config)) as [w|] eqn:Ew; [left|right; reflexivity].
    eexists; split; [reflexivity|]; split; [reflexivity|].
    apply write_file_spec in Ew; exact Ew.
Qed.

(** Claim C4 (code bug).  A config file [/tmp/settings.txt], picked
    with the Browse dialog's "All files" filter, is accepted by
    [initialize] but fails the path-safety check on its extension.
    [write_config] then raises [ValueError], although the file itself
    could be written, and the Save handler [_save_config], which only
    tests the returned flag, lets the exception escape.  On the other
    hand [write_config]'s own write error is a [False] flag (a missing
    directory [/opt]), and [save_profile] reports the same path-safety
    failure (a profile directory under [/etc]) as [False]. *)
Theorem write_config_raises_on_unsafe_path :
  let p := [t "/"; t "tmp"; t "settings.txt"] in
  let st := snd (initialize (new_ConfigManager txt_world) [] (Some p)) in
  let q := [t "/"; t "opt"; t "GameUserSettings.ini"] in
  let stp := mkCM tmp_world None None (Some [t "/"; t "etc"]) [] in
  fst (initialize (new_ConfigManager txt_world) [] (Some p)) = Some true
  /\ config_path st = Some p
  /\ validate_path (world st) p = false
  /\ write_file (world st) p (serialize (current_config st)) <> None
  /\ write_config st (current_config st) = Raise ValueError
  /\ save_config st [(t "DLSSMode", t "Quality")] = Some (Raise ValueError)
  /\ validate_path tmp_world q = true
  /\ write_config (tmp_manager q) [] = Ret (false, tmp_manager q)
  /\ validate_path tmp_world (profile_path [t "/"; t "etc"] (t "p")) = false
  /\ save_profile stp (t "p") [] = (false, stp).
Proof.
  intros p st q stp.
  split; [reflexivity|]. split; [reflexivity|]. split; [reflexivity|].
  split; [vm_compute; discriminate|].
  split; [reflexivity|]. split; [vm_compute; reflexivity|].
  split; [reflexivity|]. split; [reflexivity|]. split; reflexivity.
Qed.

(** * Repeated section headers *)

(** Claim C10 (code bug).  Under a header [[]], whose section name is
    empty, [read_config] creates the section but drops every key line,
    because [if '=' in line and current_section] tests the name for
    truth, so the lines of repeated [[]] headers do not accumulate. *)
Theorem read_config_empty_section_drops_keys :
  parse_config (t "[]
a=1
[]
b=2
") = [([], [])].
Proof. reflexivity. Qed.

(** With non-empty names, repeated headers merge and the last value of a
    key wins. *)
Example read_config_merges_sections :
  parse_config (t "[S]
a=1
[T]
x=0
[S]
b=2
a=3
") = [(t "S", [(t "a", t "3"); (t "b", t "2")]); (t "T", [(t "x", t "0")])].
Proof. reflexivity. Qed.

(** * Backups *)




(** A [restore_backup] of a missing or unsafe path fails and changes
    nothing. *)
Lemma restore_backup_rejects (st : ConfigManager) (bp : path) :
  path_exists (world st) bp = false \/ validate_path (world st) bp = false ->
  restore_backup st bp = (false, st).
Proof.
  unfold restore_backup; intros [H|H]; rewrite H; [reflexivity|].
  destruct (path_exists (world st) bp); reflexivity.
Qed.

(** Claim C7 (code bug).  When the backup directory is not writable the
    [pre_restore] backup fails ([create_backup] returns [None]), yet
    [restore_backup] goes on: it overwrites the live config with the
    restored file, returns [True], and no snapshot of the old contents
    exists anywhere. *)
Theorem restore_backup_without_snapshot :
  let st0 := game_manager (t "GameUserSettings.ini") false in
  let live := game_dir ++ [t "GameUserSettings.ini"] in
  create_backup st0 (t "pre_restore") = (None, st0)
  /\ exists st1, restore_backup st0 old_ini = (true, st1)
     /\ files (world st0) live = Some (t "[S]
k=live
")
     /\ files (world st1) live = Some (t "[S]
k=old
")
     /\ (forall q, q <> live -> files (world st1) q = files (world st0) q).
Proof.
  intros st0 live.
  assert (Hcb : create_backup st0 (t "pre_restore") = (None, st0)) by reflexivity.
  split; [exact Hcb|].
  exists (with_world st0 (set_file (world st0) live (Some (t "[S]
k=old
")))).
  split; [unfold restore_backup; rewrite Hcb; reflexivity|].
  split; [reflexivity|]. split; [reflexivity|].
  intros q Hq. cbn [world with_world set_file files].
  destruct (path_eqb q live) eqn:E; [apply path_eqb_eq in E; contradiction|reflexivity].
Qed.
(** ** The profile file: [json.dump] then [json.load] *)

Lemma skip_ws_nonws (c : ascii) (s : text) : is_ws c = false -> skip_ws (c :: s) = c :: s.
Proof. intro H; simpl; rewrite H; reflexivity. Qed.

Lemma skip_ws_spaces n s : skip_ws (repeat SPACE n ++ s) = skip_ws s.
Proof. induction n as [|n IH]; [reflexivity|exact IH]. Qed.

Lemma skip_ws_nl_ind lvl s : skip_ws (nl_ind lvl ++ s) = skip_ws s.
Proof. unfold nl_ind; cbn [app]; apply skip_ws_spaces. Qed.

Lemma parse_str_encode_char c s : parse_str (encode_char c ++ s) = cons_fst c (parse_str s).
Proof. destruct c as [[] [] [] [] [] [] [] []]; reflexivity. Qed.

Lemma parse_str_encode s rest : parse_str (flat_map encode_char s ++ QUOTE :: rest) = Some (s, rest).
Proof.
  induction s as [|c s IH]; [reflexivity|].
  cbn [flat_map]; rewrite <- app_assoc, parse_str_encode_char, IH; reflexivity.
Qed.
Lemma parse_value_quote f x :
  parse_value (S f) (QUOTE :: x)
  = match parse_str x with Some (y, r) => Some (JStr y, r) | None => None end.
Proof. reflexivity. Qed.

Lemma parse_value_lbrace f x :
  parse_value (S f) (LBRACE :: x)
  = match skip_ws x with
    | d :: r' => if char_eqb d QUOTE then parse_members f r' []
                 else if char_eqb d RBRACE then Some (JObj [], r')
                 else None
    | [] => None
    end.
Proof. reflexivity. Qed.

Lemma parse_members_S f s acc :
  parse_members (S f) s acc
  = match parse_str s with
    | None => None
    | Some (k, r) =>
        match skip_ws r with
        | d :: r1 =>
            if char_eqb d COLON then
              match parse_value f (skip_ws r1) with
              | None => None
              | Some (v, r2) =>
                  match skip_ws r2 with
                  | e :: r3 =>
                      if char_eqb e RBRACE then Some (JObj (dict_set acc k v), r3)
                      else if char_eqb e COMMA then
                        match skip_ws r3 with
                        | g :: r4 => if char_eqb g QUOTE then parse_members f r4 (dict_set acc k v) else None
                        | [] => None
                        end
                      else None
                  | [] => None
                  end
              end
            else None
        | [] => None
        end
    end.
Proof. reflexivity. Qed.

Lemma dump_ok_str lvl s : dump_ok lvl (JStr s).
Proof.
  split; [exists QUOTE, (flat_map encode_char s ++ [QUOTE]); split; reflexivity|].
  intros [|f] rest HF; [lia|].
  cbn [dump encode_str app]; rewrite <- app_assoc; cbn [app].
  rewrite parse_value_quote, parse_str_encode; reflexivity.
Qed.

Lemma join_items_cons {A : Type} (f : A -> text) sep x r :
  join_items f sep (x :: r) = f x ++ match r with [] => [] | _ => sep ++ join_items f sep r end.
Proof. destruct r; [rewrite app_nil_r|]; reflexivity. Qed.

Lemma dump_obj lvl kv m :
  dump lvl (JObj (kv :: m))
  = LBRACE :: nl_ind (S lvl) ++ member_text lvl kv ++ more_members lvl m ++ nl_ind lvl ++ [RBRACE].
Proof.
  transitivity (LBRACE :: nl_ind (S lvl)
                  ++ join_items (member_text lvl) (COMMA :: nl_ind (S lvl)) (kv :: m)
                  ++ nl_ind lvl ++ [RBRACE]); [reflexivity|].
  rewrite join_items_cons, <- app_assoc; destruct m; reflexivity.
Qed.

Lemma more_members_cons lvl kv m :
  more_members lvl (kv :: m) = COMMA :: nl_ind (S lvl) ++ member_text lvl kv ++ more_members lvl m.
Proof. unfold more_members at 1; rewrite join_items_cons; destruct m; reflexivity. Qed.

Lemma char_eqb_refl c : char_eqb c c = true.
Proof. apply Ascii.eqb_refl. Qed.

Lemma skip_ws_space s : skip_ws (SPACE :: s) = skip_ws s.
Proof. reflexivity. Qed.

Lemma skip_ws_head (d : text) c r tl : d = c :: r -> is_ws c = false -> skip_ws (d ++ tl) = d ++ tl.
Proof. intros -> H; apply skip_ws_nonws, H. Qed.

Lemma colon_space : t ": " = [COLON; SPACE].
Proof. reflexivity. Qed.

Lemma dict_get_notin_app {V : Type} (acc : list (text * V)) k x m :
  NoDup (map fst (acc ++ (k, x) :: m)) -> dict_get acc k = None.
Proof.
  intro H; apply dict_get_none_notin; rewrite map_app in H; cbn [map fst] in H.
  apply NoDup_remove_2 in H; intro Hin; apply H, in_or_app; left; exact Hin.
Qed.

Ltac len_simpl :=
  repeat (rewrite length_app in * || rewrite length_cons in *).

Lemma parse_members_dump lvl m : forall k x acc G rest,
  NoDup (map fst (acc ++ (k, x) :: m)) ->
  Forall (fun kv => dump_ok (S lvl) (snd kv)) ((k, x) :: m) ->
  2 * List.length (flat_map encode_char k ++ QUOTE :: t ": " ++ dump (S lvl) x
                   ++ more_members lvl m ++ nl_ind lvl ++ RBRACE :: rest) + 1 < G ->
  parse_members G (flat_map encode_char k ++ QUOTE :: t ": " ++ dump (S lvl) x
                   ++ more_members lvl m ++ nl_ind lvl ++ RBRACE :: rest) acc
  = Some (JObj (acc ++ (k, x) :: m), rest).
Proof.
  induction m as [|[k2 x2] m IH]; intros k x acc G rest Hnd Hok HG;
    destruct G as [|g]; try lia;
    rewrite parse_members_S, parse_str_encode;
    inversion Hok as [|? ? [[c [r [Ed Ec]]] Hp] Hok']; subst; cbn [snd] in Ed, Hp;
    rewrite colon_space; cbn [app];
    rewrite skip_ws_nonws by reflexivity; rewrite char_eqb_refl, skip_ws_space;
    rewrite (skip_ws_head _ c r _ Ed Ec);
    rewrite Hp by (rewrite colon_space in HG; len_simpl; lia);
    rewrite (dict_set_notin acc k x (dict_get_notin_app acc k x _ Hnd)).
  - cbn [more_members app].
    rewrite skip_ws_nl_ind, skip_ws_nonws by reflexivity.
    rewrite char_eqb_refl; reflexivity.
  - rewrite more_members_cons; cbn [app].
    rewrite skip_ws_nonws by reflexivity.
    replace (char_eqb COMMA RBRACE) with false by reflexivity; rewrite char_eqb_refl.
    rewrite <- !app_assoc, skip_ws_nl_ind; unfold member_text, encode_str; cbn [app].
    rewrite skip_ws_nonws by reflexivity; rewrite char_eqb_refl, <- !app_assoc; cbn [app].
    replace (acc ++ (k, x) :: (k2, x2) :: m) with ((acc ++ [(k, x)]) ++ (k2, x2) :: m)
      by (rewrite <- app_assoc; reflexivity).
    apply IH; [rewrite <- app_assoc; exact Hnd | exact Hok' |].
    rewrite more_members_cons in HG; unfold member_text, encode_str in HG.
    rewrite !colon_space in HG |- *; len_simpl; lia.
Qed.

Lemma dump_ok_obj lvl m :
  NoDup (map fst m) -> Forall (fun kv => dump_ok (S lvl) (snd kv)) m -> dump_ok lvl (JObj m).
Proof.
  intros Hnd Hok; destruct m as [|[k x] m].
  - split; [exists LBRACE, [RBRACE]; split; reflexivity|].
    intros [|f] rest HF; [lia|reflexivity].
  - split; [rewrite dump_obj; exists LBRACE; eexists; split; reflexivity|].
    intros [|f] rest HF; [lia|].
    rewrite dump_obj in HF |- *; cbn [app]; rewrite parse_value_lbrace.
    rewrite <- !app_assoc, skip_ws_nl_ind; unfold member_text, encode_str; cbn [app].
    rewrite skip_ws_nonws by reflexivity; rewrite char_eqb_refl, <- !app_assoc; cbn [app].
    apply (parse_members_dump lvl m k x [] f rest Hnd Hok).
    unfold member_text, encode_str in HF; rewrite !colon_space in HF |- *; len_simpl; lia.
Qed.

Lemma dump_ok_jdoc lvl c : doc_wf c -> dump_ok lvl (jdoc c).
Proof.
  intros [Hnd Hsec]; unfold jdoc; apply dump_ok_obj.
  - rewrite map_map; erewrite map_ext; [exact Hnd|]; intros [s kv]; reflexivity.
  - apply Forall_map; eapply Forall_impl; [|exact Hsec]; intros [s kv] Hkv; cbn [snd] in *.
    apply dump_ok_obj.
    + rewrite map_map; erewrite map_ext; [exact Hkv|]; intros [k v]; reflexivity.
    + apply Forall_map, Forall_forall; intros [k v] _; apply dump_ok_str.
Qed.

Lemma json_loads_dump v : dump_ok 0 v -> json_loads (dump 0 v) = Some v.
Proof.
  intros [[c [r [Ed Ec]]] Hp]; unfold json_loads.
  rewrite <- (app_nil_r (dump 0 v)), (skip_ws_head _ c r _ Ed Ec), Hp by lia.
  reflexivity.
Qed.

(** ** Profile paths *)

Lemma sanitize_char_not_slash c :
  char_eqb "/"%char (if is_word c || char_eqb c "-"%char then c else "_"%char) = false.
Proof.
  destruct (is_word c || char_eqb c "-"%char) eqn:E; [|reflexivity].
  destruct (char_eqb "/"%char c) eqn:E2; [|reflexivity].
  unfold char_eqb in E2; apply Ascii.eqb_eq in E2; subst c; discriminate E.
Qed.

Lemma sanitize_no_slash nm : existsb (char_eqb "/"%char) (sanitize nm ++ t ".json") = false.
Proof.
  induction nm as [|c nm IH]; [reflexivity|].
  cbn [sanitize map app existsb] in *; rewrite sanitize_char_not_slash; exact IH.
Qed.

Lemma split_slash_no_slash s cur :
  existsb (char_eqb "/"%char) s = false -> split_slash s cur = [rev cur ++ s].
Proof.
  revert cur; induction s as [|c s IH]; intros cur H; cbn [split_slash].
  - rewrite app_nil_r; reflexivity.
  - cbn [existsb] in H; apply orb_false_iff in H as [Hc Hs].
    unfold char_eqb in *; rewrite Ascii.eqb_sym, Hc, IH by exact Hs.
    cbn [rev]; rewrite <- app_assoc; reflexivity.
Qed.

Lemma profile_path_eq pd nm : profile_path pd nm = pd ++ [sanitize nm ++ t ".json"].
Proof.
  unfold profile_path, path_join.
  rewrite (split_slash_no_slash _ [] (sanitize_no_slash nm)); cbn [rev app filter].
  assert (Hlen : List.length (sanitize nm ++ t ".json") = List.length nm + 5)
    by (unfold sanitize; rewrite length_app, length_map; reflexivity).
  rewrite (text_eqb_neq (sanitize nm ++ t ".json") [])
    by (intro E; rewrite E in Hlen; cbn in Hlen; lia).
  rewrite (text_eqb_neq (sanitize nm ++ t ".json") (t "."))
    by (intro E; rewrite E in Hlen; cbn in Hlen; lia).
  cbn [negb andb].
  destruct nm as [|c nm]; [reflexivity|].
  unfold startswith; cbn [sanitize map app].
  rewrite sanitize_char_not_slash; reflexivity.
Qed.

Lemma profile_path_inj pd a b :
  profile_path pd a = profile_path pd b <-> sanitize a = sanitize b.
Proof.
  rewrite !profile_path_eq; split.
  - intro E; apply app_inv_head in E; injection E as E; apply app_inv_tail in E; exact E.
  - intros ->; reflexivity.
Qed.

Lemma set_file_other w p c q : q <> p -> files (set_file w p c) q = files w q.
Proof.
  intro H; cbn [files set_file].
  destruct (path_eqb q p) eqn:E; [apply path_eqb_eq in E; contradiction|reflexivity].
Qed.

(** Claim C6 (corrected).  With a profile directory [pd] set, the three profile
    operations address the single file [pd/<sanitize name>.json]:
    [save_profile] changes no other file and, when it succeeds, writes
    that one; [delete_profile] changes no other file and, when it
    succeeds, removes that one; [load_profile] depends on that path
    only.  Two names share the file exactly when [sanitize], the
    [re.sub(r'[^\w\-]', '_', name)] of the code, maps them to the same
    string. *)
Theorem profile_files_addressed (st : ConfigManager) (pd : path) (nm : text) (config : document) :
  profiles_dir st = Some pd ->
  profile_path pd nm = pd ++ [sanitize nm ++ t ".json"]
  /\ (forall q, q <> profile_path pd nm ->
        files (world (snd (save_profile st nm config))) q = files (world st) q)
  /\ (fst (save_profile st nm config) = true ->
        files (world (snd (save_profile st nm config))) (profile_path pd nm)
        = Some (profile_file nm (clock_iso (world st)) config))
  /\ (forall q, q <> profile_path pd nm ->
        files (world (snd (delete_profile st nm))) q = files (world st) q)
  /\ (fst (delete_profile st nm) = true ->
        files (world (snd (delete_profile st nm))) (profile_path pd nm) = None)
  /\ (forall w, files w (profile_path pd nm) = files (world st) (profile_path pd nm) ->
        is_dir w (profile_path pd nm) = is_dir (world st) (profile_path pd nm) ->
        load_profile (with_world st w) nm = load_profile st nm)
  /\ (forall nm2, profile_path pd nm = profile_path pd nm2 <-> sanitize nm = sanitize nm2).
Proof.
  intro Hpd.
  split; [apply profile_path_eq|].
  split; [|split; [|split; [|split; [|split; [|intro nm2; apply profile_path_inj]]]]].
  - intros q Hq; unfold save_profile; rewrite Hpd.
    destruct (negb _); [reflexivity|].
    unfold write_file; destruct (_ && _ && _); [|reflexivity].
    apply set_file_other, Hq.
  - unfold save_profile; rewrite Hpd.
    destruct (negb _); [discriminate|].
    unfold write_file; destruct (_ && _ && _); [|discriminate].
    intros _; cbn [snd world with_world files set_file].
    rewrite (proj2 (path_eqb_eq _ _) eq_refl); reflexivity.
  - intros q Hq; unfold delete_profile; rewrite Hpd.
    destruct (path_exists _ _); [|reflexivity].
    unfold unlink; destruct (files (world st) (profile_path pd nm)); [|reflexivity].
    destruct (writable _ _); [|reflexivity].
    apply set_file_other, Hq.
  - unfold delete_profile; rewrite Hpd.
    destruct (path_exists _ _); [|discriminate].
    unfold unlink; destruct (files (world st) (profile_path pd nm)); [|discriminate].
    destruct (writable _ _); [|discriminate].
    intros _; cbn [snd world with_world files set_file].
    rewrite (proj2 (path_eqb_eq _ _) eq_refl); reflexivity.
  - intros w Hf Hd; unfold load_profile; cbn [profiles_dir with_world world]; rewrite Hpd.
    unfold path_exists; rewrite Hf, Hd; reflexivity.
Qed.

Lemma profile_files_addressed_witness :
  profiles_dir (game_manager (t "GameUserSettings.ini") true) = Some game_profiles
  /\ profile_path game_profiles (t "Test Profile") = game_profiles ++ [t "Test_Profile.json"].
Proof.
  split; [reflexivity|].
  destruct (profile_files_addressed (game_manager (t "GameUserSettings.ini") true)
              game_profiles (t "Test Profile") [] eq_refl) as [H _].
  rewrite H; reflexivity.
Defined.

(** Claim C6: counterexample.  The class [\w] of the code is Unicode:
    the name ["é"] (U+00E9) is kept as it is, so its profile is
    [é.json], not the [_.json] of the claimed [[A-Za-z0-9_-]] rule,
    and it does not share a file with the name ["_"], although the
    claimed rule maps both names to ["_"]. *)
Lemma profile_name_keeps_unicode_letters :
  profile_path game_profiles [chr 233] = game_profiles ++ [[chr 233] ++ t ".json"]
  /\ profile_path game_profiles [chr 233] <> game_profiles ++ [claimed_sanitize [chr 233] ++ t ".json"]
  /\ claimed_sanitize [chr 233] = claimed_sanitize (t "_")
  /\ profile_path game_profiles [chr 233] <> profile_path game_profiles (t "_").
Proof.
  split; [reflexivity|]. split; [vm_compute; discriminate|].
  split; [reflexivity|vm_compute; discriminate].
Qed.




(** * Further properties of the code *)

(** ** Dict deletion and documents *)

Section DictMore.
Context {V : Type}.

Lemma dict_get_In (d : list (text * V)) k v : dict_get d k = Some v -> In (k, v) d.
Proof.
  induction d as [|[a x] r IH]; cbn [dict_get]; [discriminate|].
  destruct (text_eqb k a) eqn:E.
  - apply text_eqb_eq in E; subst a; intro H; injection H as ->; left; reflexivity.
  - intro H; right; exact (IH H).
Qed.

Lemma dict_get_del_other (d : list (text * V)) k k' :
  k' <> k -> dict_get (dict_del d k) k' = dict_get d k'.
Proof.
  intro H; induction d as [|[a v] r IH]; cbn [dict_del dict_get]; [reflexivity|].
  destruct (text_eqb k a) eqn:E.
  - apply text_eqb_eq in E; subst a; rewrite (text_eqb_neq k' k H); reflexivity.
  - cbn [dict_get]; rewrite IH; reflexivity.
Qed.

Lemma dict_get_del_same (d : list (text * V)) k :
  NoDup (map fst d) -> dict_get (dict_del d k) k = None.
Proof.
  induction d as [|[a v] r IH]; intro Hn; cbn [dict_del]; [reflexivity|].
  cbn [map fst] in Hn; inversion Hn as [|? ? Hnot Hr]; subst.
  destruct (text_eqb k a) eqn:E.
  - apply text_eqb_eq in E; subst a; apply dict_get_none_notin; exact Hnot.
  - cbn [dict_get]; rewrite E; apply IH; exact Hr.
Qed.

Lemma dict_del_fst_incl (d : list (text * V)) k x :
  In x (map fst (dict_del d k)) -> In x (map fst d).
Proof.
  induction d as [|[a v] r IH]; cbn [dict_del]; [tauto|].
  destruct (text_eqb k a); cbn [map fst In]; [tauto|].
  intros [H|H]; [left; exact H|right; exact (IH H)].
Qed.

Lemma dict_del_nodup (d : list (text * V)) k :
  NoDup (map fst d) -> NoDup (map fst (dict_del d k)).
Proof.
  induction d as [|[a v] r IH]; intro Hn; cbn [dict_del]; [exact Hn|].
  cbn [map fst] in Hn; inversion Hn as [|? ? Hnot Hr]; subst.
  destruct (text_eqb k a); [exact Hr|].
  cbn [map fst]; constructor; [|exact (IH Hr)].
  intro Hin; exact (Hnot (dict_del_fst_incl r k a Hin)).
Qed.

Lemma dict_set_fst_in (d : list (text * V)) k v :
  In k (map fst d) -> map fst (dict_set d k v) = map fst d.
Proof.
  induction d as [|[a x] r IH]; cbn [dict_set map fst In]; [tauto|].
  destruct (text_eqb k a) eqn:E; [reflexivity|].
  intros [H|H]; [subst a; rewrite text_eqb_refl in E; discriminate|].
  cbn [map fst]; rewrite (IH H); reflexivity.
Qed.

Lemma dict_set_fst_incl (d : list (text * V)) k v x :
  In x (map fst (dict_set d k v)) -> x = k \/ In x (map fst d).
Proof.
  induction d as [|[a y] r IH]; cbn [dict_set map fst In].
  - intros [H|[]]; left; symmetry; exact H.
  - destruct (text_eqb k a); cbn [map fst In]; [tauto|].
    intros [H|H]; [tauto|]. destruct (IH H); tauto.
Qed.

Lemma dict_set_nodup (d : list (text * V)) k v :
  NoDup (map fst d) -> NoDup (map fst (dict_set d k v)).
Proof.
  induction d as [|[a y] r IH]; intro Hn; cbn [dict_set map fst].
  - constructor; [tauto|constructor].
  - cbn [map fst] in Hn; inversion Hn as [|? ? Hnot Hr]; subst.
    destruct (text_eqb k a) eqn:E; cbn [map fst]; [exact Hn|].
    constructor; [|exact (IH Hr)].
    intro Hin; destruct (dict_set_fst_incl r k v a Hin) as [->|H];
      [rewrite text_eqb_refl in E; discriminate|exact (Hnot H)].
Qed.

Lemma Forall_dict_set (P : V -> Prop) (d : list (text * V)) k v :
  Forall (fun kv => P (snd kv)) d -> P v -> Forall (fun kv => P (snd kv)) (dict_set d k v).
Proof.
  induction d as [|[a y] r IH]; intros Hd Hv; cbn [dict_set].
  - constructor; [exact Hv|constructor].
  - inversion Hd as [|? ? Ha Hr]; subst.
    destruct (text_eqb k a); constructor; auto.
Qed.

Lemma Forall_dict_get (P : V -> Prop) (d : list (text * V)) k v :
  Forall (fun kv => P (snd kv)) d -> dict_get d k = Some v -> P v.
Proof.
  intros Hd Hg; apply dict_get_In in Hg.
  rewrite Forall_forall in Hd; exact (Hd _ Hg).
Qed.

End DictMore.

Lemma lookup_dict_set (c : document) s m s' k :
  config_lookup (dict_set c s m) s' k
  = if text_eqb s' s then dict_get m k else config_lookup c s' k.
Proof.
  unfold config_lookup; destruct (text_eqb s' s) eqn:E.
  - apply text_eqb_eq in E; subst s'; rewrite dict_get_set_same; reflexivity.
  - rewrite dict_get_set_other; [reflexivity|].
    intro H; subst; rewrite text_eqb_refl in E; discriminate.
Qed.

(** [config[s][k] = v], creating the section [s] when it is missing, as
    [set_setting] and [_add_competitive_setting] do it. *)
Lemma lookup_ensure_set (c : document) s k v s' k' :
  config_lookup
    (dict_set (if dict_mem c s then c else dict_set c s []) s
       (dict_set (match dict_get (if dict_mem c s then c else dict_set c s []) s with
                  | Some m => m | None => [] end) k v)) s' k'
  = if text_eqb s' s && text_eqb k' k then Some v else config_lookup c s' k'.
Proof.
  rewrite lookup_dict_set; unfold dict_mem.
  destruct (text_eqb s' s) eqn:Es; cbn [andb].
  - apply text_eqb_eq in Es; subst s'.
    destruct (text_eqb k' k) eqn:Ek.
    + apply text_eqb_eq in Ek; subst k'; apply dict_get_set_same.
    + rewrite dict_get_set_other by (intro H; subst; rewrite text_eqb_refl in Ek; discriminate).
      unfold config_lookup; destruct (dict_get c s) eqn:Ec; [rewrite Ec; reflexivity|].
      rewrite dict_get_set_same; reflexivity.
  - destruct (dict_get c s) eqn:Ec; [reflexivity|].
    rewrite lookup_dict_set, Es; reflexivity.
Qed.

Lemma doc_wf_ensure_set (c : document) s k v :
  doc_wf c ->
  doc_wf (dict_set (if dict_mem c s then c else dict_set c s []) s
            (dict_set (match dict_get (if dict_mem c s then c else dict_set c s []) s with
                       | Some m => m | None => [] end) k v)).
Proof.
  intros [Hn Hf].
  set (c1 := if dict_mem c s then c else dict_set c s []).
  assert (H1 : doc_wf c1).
  { unfold c1; destruct (dict_mem c s); [split; assumption|].
    split; [apply dict_set_nodup; exact Hn|].
    apply (Forall_dict_set (fun m => NoDup (map fst m))); [exact Hf|constructor]. }
  destruct H1 as [Hn1 Hf1]; split; [apply dict_set_nodup; exact Hn1|].
  apply (Forall_dict_set (fun m => NoDup (map fst m))); [exact Hf1|].
  apply dict_set_nodup.
  destruct (dict_get c1 s) eqn:E; [|constructor].
  exact (Forall_dict_get (fun m => NoDup (map fst m)) _ _ _ Hf1 E).
Qed.

Lemma is_in_lookup c d :
  is_setting_in_config c d
  = match config_lookup c (section d) (key d) with Some _ => true | None => false end.
Proof.
  destruct c as [|x c]; [reflexivity|].
  unfold is_setting_in_config, config_lookup, dict_mem.
  destruct (dict_get (x :: c) (section d)); reflexivity.
Qed.

Lemma lookup_add c d s k :
  config_lookup (add_competitive_setting c d) s k
  = if text_eqb s (section d) && text_eqb k (key d) then Some (default d) else config_lookup c s k.
Proof. unfold add_competitive_setting; apply lookup_ensure_set. Qed.

Lemma doc_wf_add c d : doc_wf c -> doc_wf (add_competitive_setting c d).
Proof. unfold add_competitive_setting; apply doc_wf_ensure_set. Qed.

Lemma lookup_remove c d s k :
  doc_wf c ->
  config_lookup (remove_competitive_setting c d) s k
  = if text_eqb s (section d) && text_eqb k (key d) then None else config_lookup c s k.
Proof.
  intros [Hn Hf]; unfold remove_competitive_setting.
  destruct (dict_get c (section d)) as [m|] eqn:Em.
  - assert (Hm : NoDup (map fst m))
      by exact (Forall_dict_get (fun m => NoDup (map fst m)) _ _ _ Hf Em).
    destruct (dict_mem m (key d)) eqn:Emem.
    + rewrite lookup_dict_set.
      destruct (text_eqb s (section d)) eqn:Es; cbn [andb]; [|reflexivity].
      apply text_eqb_eq in Es; subst s.
      destruct (text_eqb k (key d)) eqn:Ek.
      * apply text_eqb_eq in Ek; subst k; apply dict_get_del_same; exact Hm.
      * rewrite dict_get_del_other by (intro H; subst; rewrite text_eqb_refl in Ek; discriminate).
        unfold config_lookup; rewrite Em; reflexivity.
    + destruct (text_eqb s (section d)) eqn:Es; cbn [andb]; [|reflexivity].
      apply text_eqb_eq in Es; subst s.
      destruct (text_eqb k (key d)) eqn:Ek; [|reflexivity].
      apply text_eqb_eq in Ek; subst k.
      unfold config_lookup; rewrite Em; unfold dict_mem in Emem.
      destruct (dict_get m (key d)); [discriminate|reflexivity].
  - destruct (text_eqb s (section d)) eqn:Es; cbn [andb]; [|reflexivity].
    apply text_eqb_eq in Es; subst s.
    destruct (text_eqb k (key d)); [|reflexivity].
    unfold config_lookup; rewrite Em; reflexivity.
Qed.

Lemma remove_fst_wf c d :
  doc_wf c ->
  map fst (remove_competitive_setting c d) = map fst c /\ doc_wf (remove_competitive_setting c d).
Proof.
  intros [Hn Hf]; unfold remove_competitive_setting.
  destruct (dict_get c (section d)) as [m|] eqn:Em; [|split; [reflexivity|split; assumption]].
  destruct (dict_mem m (key d)); [|split; [reflexivity|split; assumption]].
  assert (Hin : In (section d) (map fst c)).
  { apply dict_get_In in Em; apply (in_map fst) in Em; exact Em. }
  rewrite (dict_set_fst_in _ _ _ Hin); split; [reflexivity|].
  split; [rewrite (dict_set_fst_in _ _ _ Hin); exact Hn|].
  apply (Forall_dict_set (fun m => NoDup (map fst m))); [exact Hf|].
  apply dict_del_nodup; exact (Forall_dict_get (fun m => NoDup (map fst m)) _ _ _ Hf Em).
Qed.

Lemma fold_remove l c :
  doc_wf c ->
  doc_wf (fold_left remove_competitive_setting l c)
  /\ map fst (fold_left remove_competitive_setting l c) = map fst c
  /\ forall s k, config_lookup (fold_left remove_competitive_setting l c) s k
                 = if existsb (fun d => text_eqb s (section d) && text_eqb k (key d)) l
                   then None else config_lookup c s k.
Proof.
  revert c; induction l as [|d l IH]; intros c Hc; cbn [fold_left existsb].
  - split; [exact Hc|split; [reflexivity|reflexivity]].
  - destruct (remove_fst_wf c d Hc) as [Hfst Hwf].
    destruct (IH _ Hwf) as [H1 [H2 H3]].
    split; [exact H1|split; [rewrite H2; exact Hfst|]].
    intros s k; rewrite H3, (lookup_remove c d s k Hc).
    destruct (text_eqb s (section d) && text_eqb k (key d)); cbn [orb];
      [destruct (existsb _ l); reflexivity|reflexivity].
Qed.

Lemma add_step_keeps c d s k v :
  config_lookup c s k = Some v -> config_lookup (add_step c d) s k = Some v.
Proof.
  intro H; unfold add_step.
  destruct (is_setting_in_config c d) eqn:Ei; cbn [negb]; [exact H|].
  rewrite lookup_add.
  destruct (text_eqb s (section d) && text_eqb k (key d)) eqn:E; [|exact H].
  apply andb_true_iff in E as [Es Ek].
  apply text_eqb_eq in Es, Ek; subst s k.
  rewrite is_in_lookup, H in Ei; discriminate.
Qed.

Lemma fold_add_keeps l c s k v :
  config_lookup c s k = Some v -> config_lookup (fold_left add_step l c) s k = Some v.
Proof.
  revert c; induction l as [|d l IH]; intros c H; cbn [fold_left]; [exact H|].
  apply IH, add_step_keeps, H.
Qed.

Lemma add_step_in c d : is_setting_in_config (add_step c d) d = true.
Proof.
  unfold add_step; destruct (is_setting_in_config c d) eqn:Ei; cbn [negb]; [exact Ei|].
  rewrite is_in_lookup, lookup_add, !text_eqb_refl; reflexivity.
Qed.

Lemma fold_add_in l c d : In d l -> is_setting_in_config (fold_left add_step l c) d = true.
Proof.
  revert c; induction l as [|d' l IH]; intros c Hin; [destruct Hin|]; cbn [fold_left].
  destruct Hin as [->|Hin]; [|apply IH, Hin].
  pose proof (add_step_in c d) as H; rewrite is_in_lookup in H |- *.
  destruct (config_lookup (add_step c d) (section d) (key d)) as [v|] eqn:E; [|discriminate].
  rewrite (fold_add_keeps l _ _ _ v E); reflexivity.
Qed.

Lemma fold_add_other l c s k :
  (forall d, In d l -> s <> section d \/ k <> key d) ->
  config_lookup (fold_left add_step l c) s k = config_lookup c s k.
Proof.
  revert c; induction l as [|d l IH]; intros c H; cbn [fold_left]; [reflexivity|].
  rewrite IH by (intros d' Hd'; apply H; right; exact Hd').
  unfold add_step; destruct (negb _); [|reflexivity].
  rewrite lookup_add.
  destruct (H d (or_introl eq_refl)) as [Hs|Hk].
  - rewrite (text_eqb_neq _ _ Hs); reflexivity.
  - rewrite (text_eqb_neq _ _ Hk), andb_false_r; reflexivity.
Qed.

Lemma fold_add_wf l c : doc_wf c -> doc_wf (fold_left add_step l c).
Proof.
  revert c; induction l as [|d l IH]; intros c H; cbn [fold_left]; [exact H|].
  apply IH; unfold add_step; destruct (negb _); [apply doc_wf_add|]; exact H.
Qed.

Lemma add_all_fold c :
  add_all_competitive_settings true c = fold_left add_step competitive_settings_definitions c.
Proof. reflexivity. Qed.

Lemma filter_all {A : Type} (f : A -> bool) l :
  (forall x, In x l -> f x = true) -> filter f l = l.
Proof.
  induction l as [|x l IH]; intro H; cbn [filter]; [reflexivity|].
  rewrite (H x (or_introl eq_refl)), IH by (intros y Hy; apply H; right; exact Hy).
  reflexivity.
Qed.

Lemma filter_none {A : Type} (f : A -> bool) l :
  (forall x, In x l -> f x = false) -> filter f l = [].
Proof.
  induction l as [|x l IH]; intro H; cbn [filter]; [reflexivity|].
  rewrite (H x (or_introl eq_refl)), IH by (intros y Hy; apply H; right; exact Hy).
  reflexivity.
Qed.

(** X1.  [_add_competitive_setting d] stores [str(d.default)] at
    [config[d.section][d.key]], creating the section when it is missing,
    so that [_is_setting_in_config d] holds afterwards; every other
    [config[s][k]] is unchanged. *)
Theorem add_competitive_setting_spec (c : document) (d : SettingDefinition) :
  is_setting_in_config (add_competitive_setting c d) d = true
  /\ config_lookup (add_competitive_setting c d) (section d) (key d) = Some (default d)
  /\ (forall s k, s <> section d \/ k <> key d ->
        config_lookup (add_competitive_setting c d) s k = config_lookup c s k).
Proof.
  assert (Hd : config_lookup (add_competitive_setting c d) (section d) (key d) = Some (default d))
    by (rewrite lookup_add, !text_eqb_refl; reflexivity).
  split; [rewrite is_in_lookup, Hd; reflexivity|split; [exact Hd|]].
  intros s k [H|H]; rewrite lookup_add.
  - rewrite (text_eqb_neq _ _ H); reflexivity.
  - rewrite (text_eqb_neq _ _ H), andb_false_r; reflexivity.
Qed.

(** X2.  On a config that is a dict of dicts, [_remove_competitive_setting d]
    deletes [config[d.section][d.key]] when present, so that
    [_is_setting_in_config d] is false afterwards; every other entry is
    unchanged, no section is removed (even one left empty), and the
    result is still a dict of dicts. *)
Theorem remove_competitive_setting_spec (c : document) (d : SettingDefinition)
  (Hwf : doc_wf c) :
  is_setting_in_config (remove_competitive_setting c d) d = false
  /\ (forall s k, s <> section d \/ k <> key d ->
        config_lookup (remove_competitive_setting c d) s k = config_lookup c s k)
  /\ map fst (remove_competitive_setting c d) = map fst c
  /\ doc_wf (remove_competitive_setting c d).
Proof.
  destruct (remove_fst_wf c d Hwf) as [Hfst Hw].
  split; [rewrite is_in_lookup, (lookup_remove c d _ _ Hwf), !text_eqb_refl; reflexivity|].
  split; [|split; assumption].
  intros s k [H|H]; rewrite (lookup_remove c d _ _ Hwf).
  - rewrite (text_eqb_neq _ _ H); reflexivity.
  - rewrite (text_eqb_neq _ _ H), andb_false_r; reflexivity.
Qed.

Lemma remove_competitive_setting_spec_witness :
  doc_wf input_config
  /\ exists d, dict_get SETTINGS_DEFINITIONS (t "bEnableMouseSmoothing") = Some d
     /\ is_setting_in_config input_config d = true
     /\ is_setting_in_config (remove_competitive_setting input_config d) d = false.
Proof.
  assert (H : doc_wf input_config) by (unfold doc_wf, input_config; solve_doc).
  split; [exact H|].
  destruct (dict_get SETTINGS_DEFINITIONS (t "bEnableMouseSmoothing")) as [d|] eqn:E;
    [|vm_compute in E; discriminate].
  exists d; split; [reflexivity|].
  vm_compute in E; injection E as <-.
  split; [vm_compute; reflexivity|].
  exact (proj1 (remove_competitive_setting_spec input_config _ H)).
Defined.

(** X3.  [_add_all_competitive_settings] changes nothing when its dialog is
    declined.  When confirmed, every competitive setting is in the config
    afterwards (the status line counts all of them), and every value
    already in the config is kept: only missing settings receive their
    default. *)
Theorem add_all_competitive_settings_spec (c : document) :
  add_all_competitive_settings false c = c
  /\ (forall d, In d competitive_settings_definitions ->
        is_setting_in_config (add_all_competitive_settings true c) d = true)
  /\ added_count (add_all_competitive_settings true c) = List.length competitive_settings_definitions
  /\ (forall s k v, config_lookup c s k = Some v ->
        config_lookup (add_all_competitive_settings true c) s k = Some v).
Proof.
  rewrite add_all_fold.
  assert (Hin : forall d, In d competitive_settings_definitions ->
            is_setting_in_config (fold_left add_step competitive_settings_definitions c) d = true)
    by (intros d Hd; apply fold_add_in, Hd).
  split; [reflexivity|split; [exact Hin|split]].
  - unfold added_count; rewrite (filter_all _ _ Hin); reflexivity.
  - intros s k v H; apply fold_add_keeps, H.
Qed.

(** X4.  [_remove_all_competitive_settings] changes nothing when its
    dialog is declined.  When confirmed, on a dict of dicts, no
    competitive setting is in the config afterwards (the status line
    counts none), every entry whose section and key match no competitive
    definition is unchanged, and the list of sections is unchanged. *)
Theorem remove_all_competitive_settings_spec (c : document) (Hwf : doc_wf c) :
  remove_all_competitive_settings false c = c
  /\ (forall d, In d competitive_settings_definitions ->
        is_setting_in_config (remove_all_competitive_settings true c) d = false)
  /\ added_count (remove_all_competitive_settings true c) = 0
  /\ (forall s k, (forall d, In d competitive_settings_definitions -> s <> section d \/ k <> key d) ->
        config_lookup (remove_all_competitive_settings true c) s k = config_lookup c s k)
  /\ map fst (remove_all_competitive_settings true c) = map fst c
  /\ doc_wf (remove_all_competitive_settings true c).
Proof.
  unfold remove_all_competitive_settings; cbn [negb].
  destruct (fold_remove competitive_settings_definitions c Hwf) as [Hw [Hfst Hl]].
  assert (Hout : forall d, In d competitive_settings_definitions ->
            is_setting_in_config (fold_left remove_competitive_setting competitive_settings_definitions c) d = false).
  { intros d Hd; rewrite is_in_lookup, Hl.
    replace (existsb _ _) with true; [reflexivity|symmetry].
    apply existsb_exists; exists d; split; [exact Hd|rewrite !text_eqb_refl; reflexivity]. }
  split; [reflexivity|split; [exact Hout|split]].
  - unfold added_count, remove_all_competitive_settings; cbn [negb].
    rewrite (filter_none _ _ Hout); reflexivity.
  - split; [|split; assumption].
    intros s k Hk; rewrite Hl.
    replace (existsb _ _) with false; [reflexivity|symmetry].
    apply not_true_iff_false; intro E; apply existsb_exists in E as [d [Hd E]].
    apply andb_true_iff in E as [Es Ek]; apply text_eqb_eq in Es, Ek.
    destruct (Hk d Hd); contradiction.
Qed.

Lemma remove_all_competitive_settings_spec_witness :
  doc_wf input_config
  /\ added_count input_config = 2
  /\ added_count (remove_all_competitive_settings true input_config) = 0.
Proof.
  assert (H : doc_wf input_config) by (unfold doc_wf, input_config; solve_doc).
  split; [exact H|split; [vm_compute; reflexivity|]].
  exact (proj1 (proj2 (proj2 (remove_all_competitive_settings_spec input_config H)))).
Defined.

(** X5.  On a dict of dicts holding none of the competitive settings,
    adding them all and then removing them all gives back every
    [config[s][k]] as it was; the sections the adding created remain, as
    empty sections. *)
Theorem add_all_then_remove_all (c : document) (Hwf : doc_wf c)
  (Hnone : forall d, In d competitive_settings_definitions -> is_setting_in_config c d = false) :
  (forall s k, config_lookup (remove_all_competitive_settings true (add_all_competitive_settings true c)) s k
               = config_lookup c s k)
  /\ map fst (remove_all_competitive_settings true (add_all_competitive_settings true c))
     = map fst (add_all_competitive_settings true c).
Proof.
  rewrite add_all_fold; unfold remove_all_competitive_settings; cbn [negb].
  pose proof (fold_add_wf competitive_settings_definitions c Hwf) as Hw.
  destruct (fold_remove competitive_settings_definitions _ Hw) as [_ [Hfst Hl]].
  split; [|exact Hfst].
  intros s k; rewrite Hl.
  destruct (existsb _ _) eqn:E.
  - apply existsb_exists in E as [d [Hd E]].
    apply andb_true_iff in E as [Es Ek]; apply text_eqb_eq in Es, Ek; subst s k.
    specialize (Hnone d Hd); rewrite is_in_lookup in Hnone.
    destruct (config_lookup c (section d) (key d)); [discriminate|reflexivity].
  - apply fold_add_other; intros d Hd.
    destruct (text_eqb s (section d)) eqn:Es.
    + right; intro Ek; subst k.
      assert (E' : existsb (fun d0 => text_eqb s (section d0) && text_eqb (key d) (key d0))
                     competitive_settings_definitions = true)
        by (apply existsb_exists; exists d; rewrite Es, text_eqb_refl; split; [exact Hd|reflexivity]).
      rewrite E' in E; discriminate.
    + left; intro H; subst s; rewrite text_eqb_refl in Es; discriminate.
Qed.

Lemma add_all_then_remove_all_witness :
  doc_wf [(t "S", [(t "k", t "v")])]
  /\ (forall d, In d competitive_settings_definitions ->
        is_setting_in_config [(t "S", [(t "k", t "v")])] d = false)
  /\ config_lookup (remove_all_competitive_settings true
                      (add_all_competitive_settings true [(t "S", [(t "k", t "v")])])) (t "S") (t "k")
     = Some (t "v").
Proof.
  assert (H : doc_wf [(t "S", [(t "k", t "v")])]) by (unfold doc_wf; solve_doc).
  assert (Hn : forall d, In d competitive_settings_definitions ->
                 is_setting_in_config [(t "S", [(t "k", t "v")])] d = false).
  { intros d Hd.
    assert (Hall : forallb (fun d => negb (is_setting_in_config [(t "S", [(t "k", t "v")])] d))
                     competitive_settings_definitions = true) by (vm_compute; reflexivity).
    rewrite forallb_forall in Hall; specialize (Hall d Hd).
    destruct (is_setting_in_config _ d); [discriminate|reflexivity]. }
  split; [exact H|split; [exact Hn|]].
  exact (proj1 (add_all_then_remove_all _ H Hn) (t "S") (t "k")).
Defined.

Lemma doc_wf_set (c : document) s k v :
  doc_wf c ->
  doc_wf (dict_set c s (dict_set (match dict_get c s with Some m => m | None => [] end) k v)).
Proof.
  intros [Hn Hf]; split; [apply dict_set_nodup; exact Hn|].
  apply (Forall_dict_set (fun m => NoDup (map fst m))); [exact Hf|].
  apply dict_set_nodup.
  destruct (dict_get c s) eqn:E; [|constructor].
  exact (Forall_dict_get (fun m => NoDup (map fst m)) _ _ _ Hf E).
Qed.

Lemma process_line_wf st l : doc_wf (fst st) -> doc_wf (fst (process_line st l)).
Proof.
  destruct st as [config cs]; cbn [fst]; intro H; unfold process_line; cbv zeta.
  destruct (strip l) as [|c r]; [exact H|].
  destruct (startswith LBR (c :: r) && endswith RBR (c :: r)); cbn [fst].
  - destruct (dict_mem config _); [exact H|].
    destruct H as [Hn Hf]; split; [apply dict_set_nodup; exact Hn|].
    apply (Forall_dict_set (fun m => NoDup (map fst m))); [exact Hf|constructor].
  - destruct cs as [s|]; [|exact H].
    destruct (contains EQ (c :: r) && negb (text_eqb s [])); [|exact H].
    destruct (partition EQ (c :: r)) as [k v]; apply doc_wf_set, H.
Qed.

Lemma fold_process_wf ls st : doc_wf (fst st) -> doc_wf (fst (fold_left process_line ls st)).
Proof.
  revert st; induction ls as [|l ls IH]; intros st H; cbn [fold_left]; [exact H|].
  apply IH, process_line_wf, H.
Qed.

Lemma lines_aux_prefix n : forall pre cur rest, List.length pre <= n ->
  exists ls, lines_aux (pre ++ NL :: rest) cur = ls ++ lines_aux rest []
             /\ forall l, In l ls -> In l (lines_aux pre cur) \/ l = [].
Proof.
  induction n as [|n IH]; intros pre cur rest Hlen.
  - destruct pre; [|cbn in Hlen; lia].
    exists [rev cur]; split; [reflexivity|].
    intros l [<-|[]]; destruct cur as [|a cur]; [right; reflexivity|left; left; reflexivity].
  - destruct pre as [|c r].
    + exists [rev cur]; split; [reflexivity|].
      intros l [<-|[]]; destruct cur as [|a cur]; [right; reflexivity|left; left; reflexivity].
    + cbn [List.length] in Hlen; cbn [app lines_aux].
      destruct (char_eqb c NL) eqn:E1.
      * destruct (IH r [] rest ltac:(lia)) as [ls [H1 H2]].
        exists (rev cur :: ls); rewrite H1; split; [reflexivity|].
        intros l [<-|Hl]; [left; left; reflexivity|].
        destruct (H2 l Hl); [left; right|right]; assumption.
      * destruct (char_eqb c CR) eqn:E2.
        -- destruct r as [|d r'].
           ++ exists [rev cur]; cbn [app]; rewrite char_eqb_refl; split; [reflexivity|].
              intros l [<-|[]]; left; left; reflexivity.
           ++ cbn [app List.length] in *. destruct (char_eqb d NL) eqn:E3.
              ** destruct (IH r' [] rest ltac:(lia)) as [ls [H1 H2]].
                 exists (rev cur :: ls); rewrite H1; split; [reflexivity|].
                 intros l [<-|Hl]; [left; left; reflexivity|].
                 destruct (H2 l Hl); [left; right|right]; assumption.
              ** destruct (IH (d :: r') [] rest ltac:(cbn; lia)) as [ls [H1 H2]].
                 exists (rev cur :: ls); cbn [app] in H1; rewrite H1; split; [reflexivity|].
                 intros l [<-|Hl]; [left; left; reflexivity|].
                 destruct (H2 l Hl); [left; right|right]; assumption.
        -- apply IH; lia.
Qed.

Lemma fold_no_header ls :
  (forall l, In l ls -> is_header l = false) ->
  fold_left process_line ls ([], None) = ([], None).
Proof.
  induction ls as [|l ls IH]; intro H; cbn [fold_left]; [reflexivity|].
  replace (process_line ([], None) l) with (@nil (text * list (text * text)), @None text);
    [apply IH; intros l' Hl'; apply H; right; exact Hl'|].
  specialize (H l (or_introl eq_refl)); unfold is_header in H; cbv zeta in H.
  unfold process_line; cbv zeta.
  destruct (strip l) as [|c r]; [reflexivity|].
  rewrite H; reflexivity.
Qed.

(** X6.  Whatever the file contains, [read_config] builds a dict of dicts:
    a repeated section or key is merged, never duplicated.  When it
    returns, the config is the parse of the file at [config_path], and
    the manager is the old one with that config as [current_config]:
    nothing else changed. *)
Theorem read_config_returns_dict (st : ConfigManager) (contents : text) :
  doc_wf (parse_config contents)
  /\ match read_config st with
     | Ret (c, st') => doc_wf c /\ st' = with_config st c
                       /\ exists p s, config_path st = Some p /\ files (world st) p = Some s
                                     /\ c = parse_config s
     | Raise _ => True
     end.
Proof.
  assert (Hp : forall s, doc_wf (parse_config s)).
  { intro s; unfold parse_config; apply fold_process_wf; split; constructor. }
  split; [apply Hp|].
  unfold read_config; destruct (config_path st) as [p|] eqn:Ep; [|exact I].
  destruct (negb _); [exact I|].
  destruct (files (world st) p) as [s|] eqn:Ef; [|exact I].
  split; [apply Hp|split; [reflexivity|exists p, s; auto]].
Qed.

(** X7.  Lines before the first [[section]] header are ignored:
    [key=value] lines there are dropped, and the file reads as if they
    were not there. *)
Theorem keys_before_first_section_dropped (pre rest : text)
  (Hpre : forall l, In l (lines pre) -> is_header l = false) :
  parse_config (pre ++ NL :: rest) = parse_config rest.
Proof.
  unfold parse_config, lines.
  destruct (lines_aux_prefix (List.length pre) pre [] rest (le_n _)) as [ls [H1 H2]].
  rewrite H1, fold_left_app, fold_no_header; [reflexivity|].
  intros l Hl; destruct (H2 l Hl) as [H|E]; [apply Hpre, H|subst l; reflexivity].
Qed.

Lemma keys_before_first_section_dropped_witness :
  (forall l, In l (lines (t "volume=11")) -> is_header l = false)
  /\ parse_config (t "volume=11" ++ NL :: t "[Audio]
volume=3") = [(t "Audio", [(t "volume", t "3")])].
Proof.
  assert (H : forall l, In l (lines (t "volume=11")) -> is_header l = false)
    by (intros l Hl; vm_compute in Hl; destruct Hl as [<-|[]]; reflexivity).
  split; [exact H|].
  rewrite (keys_before_first_section_dropped _ _ H); reflexivity.
Defined.

(** X8.  For a catalog key [k] of section [s], [set_setting k v] only
    replaces [current_config] and, in it, only the entry [config[s][k]];
    every other entry is unchanged and the config stays a dict of dicts. *)
Theorem set_setting_keeps_other_entries (st : ConfigManager) (k v : text) (d : SettingDefinition)
  (Hk : dict_get SETTINGS_DEFINITIONS k = Some d) :
  exists c', set_setting st k v = (true, with_config st c')
    /\ (forall s k', s <> section d \/ k' <> k ->
          config_lookup c' s k' = config_lookup (current_config st) s k')
    /\ (doc_wf (current_config st) -> doc_wf c').
Proof.
  unfold set_setting; rewrite Hk; eexists; split; [reflexivity|].
  split; [|apply doc_wf_ensure_set].
  intros s k' H; rewrite lookup_ensure_set.
  destruct H as [H|H]; [rewrite (text_eqb_neq _ _ H)|rewrite (text_eqb_neq _ _ H), andb_false_r];
    reflexivity.
Qed.

Lemma set_setting_keeps_other_entries_witness :
  dict_get SETTINGS_DEFINITIONS (t "FrameRateLimit") <> None
  /\ exists c', set_setting (mkCM tmp_world None None None
                               [(t "/Script/Engine.GameUserSettings", [(t "bUseVSync", t "False")])])
                            (t "FrameRateLimit") (t "144") = (true, with_config (mkCM tmp_world None None None
                               [(t "/Script/Engine.GameUserSettings", [(t "bUseVSync", t "False")])]) c')
       /\ config_lookup c' (t "/Script/Engine.GameUserSettings") (t "bUseVSync") = Some (t "False").
Proof.
  split; [vm_compute; discriminate|].
  destruct (dict_get SETTINGS_DEFINITIONS (t "FrameRateLimit")) as [d|] eqn:E;
    [|vm_compute in E; discriminate].
  destruct (set_setting_keeps_other_entries (mkCM tmp_world None None None
                               [(t "/Script/Engine.GameUserSettings", [(t "bUseVSync", t "False")])])
              (t "FrameRateLimit") (t "144") d E) as [c' [H1 [H2 _]]].
  exists c'; split; [exact H1|].
  rewrite H2; [reflexivity|right; vm_compute; discriminate].
Defined.

Lemma validate_forbidden w p f :
  In f forbidden_paths -> path_exists w f = true ->
  is_prefix (resolve w f) (resolve w p) = true -> validate_path w p = false.
Proof.
  intros Hf He Hp; unfold validate_path.
  destruct (forallb _ forbidden_paths) eqn:E; [|reflexivity].
  rewrite forallb_forall in E; specialize (E f Hf); rewrite He, Hp in E; discriminate.
Qed.

(** X9.  A path whose resolved form lies under an existing forbidden
    directory ([/etc], [/usr], [/bin], [C:/Windows], ...) fails
    [validate_path]: [write_config] to it raises [ValueError],
    [save_profile] to it returns [False], and [restore_backup] from it
    returns [False], each leaving the manager unchanged. *)
Theorem forbidden_dirs_never_touched (st : ConfigManager) (p f : path)
  (Hf : In f forbidden_paths) (He : path_exists (world st) f = true)
  (Hp : is_prefix (resolve (world st) f) (resolve (world st) p) = true) :
  validate_path (world st) p = false
  /\ (config_path st = Some p -> forall c, write_config st c = Raise ValueError)
  /\ (forall pd nm c, profiles_dir st = Some pd -> profile_path pd nm = p ->
        save_profile st nm c = (false, st))
  /\ restore_backup st p = (false, st).
Proof.
  pose proof (validate_forbidden _ _ _ Hf He Hp) as Hv.
  split; [exact Hv|split; [|split]].
  - intros Hc c; unfold write_config; rewrite Hc, Hv; reflexivity.
  - intros pd nm c Hpd Hpp; unfold save_profile; rewrite Hpd, Hpp, Hv; reflexivity.
  - unfold restore_backup; destruct (path_exists (world st) p); [rewrite Hv|]; reflexivity.
Qed.

Lemma forbidden_dirs_never_touched_witness :
  In [t "/"; t "etc"] forbidden_paths
  /\ write_config (tmp_manager [t "/"; t "etc"; t "hosts.ini"]) [] = Raise ValueError.
Proof.
  assert (Hf : In [t "/"; t "etc"] forbidden_paths) by (right; right; right; left; reflexivity).
  split; [exact Hf|].
  destruct (forbidden_dirs_never_touched (tmp_manager [t "/"; t "etc"; t "hosts.ini"])
              [t "/"; t "etc"; t "hosts.ini"] _ Hf eq_refl eq_refl) as [_ [H _]].
  exact (H eq_refl []).
Defined.

(** ** [initialize] *)

Lemma path_eqb_neq p q : p <> q -> path_eqb p q = false.
Proof. intro H; destruct (path_eqb p q) eqn:E; [apply path_eqb_eq in E; contradiction|reflexivity]. Qed.

Lemma path_eqb_refl p : path_eqb p p = true.
Proof. apply path_eqb_eq; reflexivity. Qed.

Lemma parent_snoc (x : path) a : parent (x ++ [a]) = x.
Proof. apply removelast_last. Qed.

Lemma length_parent (p : path) : List.length p <= S (List.length (parent p)).
Proof.
  destruct p as [|a p] using rev_ind; [cbn; lia|].
  unfold parent; rewrite removelast_last, length_app; cbn [List.length]; lia.
Qed.

Lemma snoc_neq (x : path) a b : a <> b -> x ++ [a] <> x ++ [b].
Proof. intros H E; apply app_inv_head in E; injection E; exact H. Qed.

Lemma join_backups (x : path) : path_join x (t "ArcTuner_Backups") = x ++ [t "ArcTuner_Backups"].
Proof. reflexivity. Qed.

Lemma join_profiles (x : path) : path_join x (t "ArcTuner_Profiles") = x ++ [t "ArcTuner_Profiles"].
Proof. reflexivity. Qed.

Lemma os_mkdir_new w q :
  path_exists w q = false -> is_dir w (parent q) = true -> writable w (parent q) = true ->
  os_mkdir w q = Made (add_dir w q).
Proof.
  intros He Hd Hw.
  assert (Hp : path_exists w (parent q) = true)
    by (unfold path_exists; destruct (files w (parent q)); [reflexivity|exact Hd]).
  unfold os_mkdir; rewrite He, Hp, Hd, Hw; reflexivity.
Qed.

Lemma mkdir_p_made w q w' : os_mkdir w q = Made w' -> mkdir_p w q = Some w'.
Proof. intro H; unfold mkdir_p; destruct (List.length q); cbn [mkdir_parents]; rewrite H; reflexivity. Qed.

Lemma mkdir_p_dir w q : is_dir w q = true -> mkdir_p w q = Some w.
Proof.
  intro H; unfold mkdir_p.
  assert (E : os_mkdir w q = Exists)
    by (unfold os_mkdir, path_exists; destruct (files w q); [|rewrite H]; reflexivity).
  destruct (List.length q); cbn [mkdir_parents]; rewrite E, H; reflexivity.
Qed.

Lemma mkdir_p_file w q x : files w q = Some x -> is_dir w q = false -> mkdir_p w q = None.
Proof.
  intros Hf Hd; unfold mkdir_p.
  assert (E : os_mkdir w q = Exists) by (unfold os_mkdir, path_exists; rewrite Hf; reflexivity).
  destruct (List.length q); cbn [mkdir_parents]; rewrite E, Hd; reflexivity.
Qed.

(** [mkdir(parents=True, exist_ok=True)] of a path that is no file, in a
    writable directory: it then is a directory, and nothing else changes
    but the directories. *)
Lemma mkdir_p_ok w q :
  files w q = None -> is_dir w (parent q) = true -> writable w (parent q) = true ->
  exists w', mkdir_p w q = Some w' /\ is_dir w' q = true /\ files w' = files w
             /\ (forall r, is_dir w r = true -> is_dir w' r = true)
             /\ (forall r, writable w r = true -> writable w' r = true)
             /\ resolve w' = resolve w /\ clock_stamp w' = clock_stamp w.
Proof.
  intros Hf Hd Hw; destruct (is_dir w q) eqn:Eq.
  - exists w; rewrite (mkdir_p_dir _ _ Eq); repeat split; auto.
  - exists (add_dir w q); rewrite (mkdir_p_made _ _ _ (os_mkdir_new w q
      ltac:(unfold path_exists; rewrite Hf; exact Eq) Hd Hw)).
    split; [reflexivity|]; cbn [is_dir writable files resolve clock_stamp add_dir].
    rewrite path_eqb_refl; repeat split; intros r Hr; rewrite Hr, orb_true_r; reflexivity.
Qed.

(** ** Backups *)

Lemma no_slash_app (a b : text) :
  existsb (char_eqb "/"%char) (a ++ b) = existsb (char_eqb "/"%char) a || existsb (char_eqb "/"%char) b.
Proof. apply existsb_app. Qed.

Lemma backup_join (bd : path) (stamp tag : text) :
  existsb (char_eqb "/"%char) (stamp ++ tag) = false ->
  path_join bd (t "GameUserSettings_" ++ stamp ++ (match tag with [] => [] | _ => "_"%char :: tag end) ++ t ".ini")
  = bd ++ [t "GameUserSettings_" ++ stamp ++ (match tag with [] => [] | _ => "_"%char :: tag end) ++ t ".ini"].
Proof.
  intro H; rewrite no_slash_app in H; apply orb_false_iff in H as [Hs Ht].
  set (x := t "GameUserSettings_" ++ stamp ++ (match tag with [] => [] | _ => "_"%char :: tag end) ++ t ".ini").
  assert (Hx : existsb (char_eqb "/"%char) x = false).
  { unfold x; rewrite !no_slash_app, Hs.
    destruct tag as [|c tag]; [reflexivity|].
    change (existsb (char_eqb "/"%char) ("_"%char :: c :: tag))
      with (false || existsb (char_eqb "/"%char) (c :: tag)).
    rewrite Ht; reflexivity. }
  unfold path_join; rewrite (split_slash_no_slash _ [] Hx); cbn [rev app filter].
  rewrite (text_eqb_neq x []) by (unfold x; discriminate).
  rewrite (text_eqb_neq x (t ".")) by (unfold x; discriminate).
  reflexivity.
Qed.

Lemma copy2_spec w src dst w' :
  copy2 w src dst = Some w' -> is_dir w dst = false ->
  exists c, files w src = Some c /\ w' = set_file w dst (Some c)
            /\ resolve w src <> resolve w dst.
Proof.
  intros H Hd; unfold copy2 in H; destruct (files w src) as [c|]; [|discriminate].
  rewrite Hd in H; destruct (path_eqb (resolve w src) (resolve w dst)) eqn:Er; [discriminate|].
  unfold write_file in H; destruct (_ && _ && _); [|discriminate].
  injection H as <-; exists c; split; [reflexivity|split; [reflexivity|]].
  intro E; rewrite E, path_eqb_refl in Er; discriminate.
Qed.

Lemma create_backup_some st tag bp st1 :
  create_backup st tag = (Some bp, st1) -> is_dir (world st) bp = false ->
  exists p c, config_path st = Some p /\ files (world st) p = Some c
              /\ st1 = with_world st (set_file (world st) bp (Some c)).
Proof.
  intros H Hd; unfold create_backup in H.
  destruct (config_path st) as [p|] eqn:Ep; [|discriminate].
  destruct (negb _); [discriminate|].
  destruct (backup_dir st) as [bd|]; [|discriminate]; cbv zeta in H.
  destruct (copy2 _ _ _) as [w|] eqn:Ec; [|discriminate].
  injection H as E1 E2; subst bp st1.
  destruct (copy2_spec _ _ _ _ Ec Hd) as [c [Hc [-> _]]].
  exists p, c; split; [reflexivity|split; [exact Hc|reflexivity]].
Qed.

Lemma create_backup_none st tag st1 : create_backup st tag = (None, st1) -> st1 = st.
Proof.
  intro H; unfold create_backup in H.
  destruct (config_path st); [|injection H; auto].
  destruct (negb _); [injection H; auto|].
  destruct (backup_dir st); [|injection H; auto]; cbv zeta in H.
  destruct (copy2 _ _ _); [discriminate|injection H; auto].
Qed.

Lemma fold_set_setting_fields (values : list (text * text)) st :
  world (fold_left (fun s kv => snd (set_setting s (fst kv) (snd kv))) values st) = world st
  /\ config_path (fold_left (fun s kv => snd (set_setting s (fst kv) (snd kv))) values st)
     = config_path st.
Proof.
  revert st; induction values as [|[k v] values IH]; intro st; cbn [fold_left]; [split; reflexivity|].
  destruct (IH (snd (set_setting st (fst (k, v)) (snd (k, v))))) as [H1 H2]; rewrite H1, H2.
  unfold set_setting; destruct (dict_get SETTINGS_DEFINITIONS _); split; reflexivity.
Qed.

(** X10.  When the config file does not exist, [initialize] returns
    [False] but still sets [config_path] to that path, leaving the
    backup and profile directories and the file system as they were.  A
    following [write_config] raises [ValueError] when that path fails
    the path-safety check.  When it passes, it writes the missing file
    there (returning [True]) when the file's directory exists, is
    writable and the path is not a directory, and returns [False] with
    nothing changed when the directory is missing. *)
Theorem initialize_missing_config (st : ConfigManager) (localappdata p : path)
  (Hp : path_exists (world st) p = false) :
  let st1 := mkCM (world st) (Some p) (backup_dir st) (profiles_dir st) (current_config st) in
  initialize st localappdata (Some p) = (Some false, st1)
  /\ (forall c, validate_path (world st) p = false ->
        write_config (snd (initialize st localappdata (Some p))) c = Raise ValueError)
  /\ (forall c, validate_path (world st) p = true ->
        is_dir (world st) (parent p) = true -> writable (world st) (parent p) = true ->
        is_dir (world st) p = false ->
        write_config (snd (initialize st localappdata (Some p))) c
        = Ret (true, mkCM (set_file (world st) p (Some (serialize c))) (Some p)
                          (backup_dir st) (profiles_dir st) c)
        /\ files (set_file (world st) p (Some (serialize c))) p = Some (serialize c))
  /\ (forall c, validate_path (world st) p = true -> is_dir (world st) (parent p) = false ->
        write_config (snd (initialize st localappdata (Some p))) c = Ret (false, st1)).
Proof.
  intro st1.
  assert (Hi : initialize st localappdata (Some p) = (Some false, st1))
    by (unfold initialize; rewrite Hp; reflexivity).
  split; [exact Hi|]. rewrite Hi; cbn [snd].
  split; [intros c Hv; unfold write_config; cbn [config_path world st1]; rewrite Hv; reflexivity|].
  split.
  - intros c Hv Hd Hw Hnd; unfold write_config, write_file; cbn [config_path world st1].
    rewrite Hv, Hd, Hw, Hnd; split; [reflexivity|apply set_file_same].
  - intros c Hv Hd; unfold write_config, write_file; cbn [config_path world st1].
    rewrite Hv, Hd; reflexivity.
Qed.

Lemma initialize_missing_config_witness :
  let p := [t "/"; t "tmp"; t "GameUserSettings.ini"] in
  path_exists tmp_world p = false
  /\ fst (initialize (new_ConfigManager tmp_world) [] (Some p)) = Some false
  /\ write_config (snd (initialize (new_ConfigManager tmp_world) [] (Some p))) [(t "S", [(t "k", t "v")])]
     = Ret (true, mkCM (set_file tmp_world p (Some (t "[S]
k=v

"))) (Some p) None None [(t "S", [(t "k", t "v")])]).
Proof.
  intro p.
  assert (H : path_exists tmp_world p = false) by reflexivity.
  destruct (initialize_missing_config (new_ConfigManager tmp_world) [] p H) as [E [_ [W _]]].
  split; [exact H|]. rewrite E; split; [reflexivity|].
  rewrite <- E. apply (W [(t "S", [(t "k", t "v")])]); reflexivity.
Defined.

(** X11.  When the config file exists in a writable directory [D] where
    no regular file is named [ArcTuner_Backups] or [ArcTuner_Profiles],
    [initialize] returns [True], sets [backup_dir] to
    [D/ArcTuner_Backups] and [profiles_dir] to [D/ArcTuner_Profiles],
    both of which are directories afterwards, and changes no file and
    not the current config. *)
Theorem initialize_creates_dirs (st : ConfigManager) (localappdata p : path)
  (Hp : path_exists (world st) p = true)
  (Hd : is_dir (world st) (parent p) = true) (Hw : writable (world st) (parent p) = true)
  (Hb : files (world st) (parent p ++ [t "ArcTuner_Backups"]) = None)
  (Hpr : files (world st) (parent p ++ [t "ArcTuner_Profiles"]) = None) :
  exists st', initialize st localappdata (Some p) = (Some true, st')
    /\ config_path st' = Some p
    /\ backup_dir st' = Some (parent p ++ [t "ArcTuner_Backups"])
    /\ profiles_dir st' = Some (parent p ++ [t "ArcTuner_Profiles"])
    /\ is_dir (world st') (parent p ++ [t "ArcTuner_Backups"]) = true
    /\ is_dir (world st') (parent p ++ [t "ArcTuner_Profiles"]) = true
    /\ files (world st') = files (world st)
    /\ current_config st' = current_config st.
Proof.
  unfold initialize; rewrite Hp; cbn [negb]; rewrite join_backups, join_profiles.
  destruct (mkdir_p_ok (world st) (parent p ++ [t "ArcTuner_Backups"]) Hb
              ltac:(rewrite parent_snoc; exact Hd) ltac:(rewrite parent_snoc; exact Hw))
    as [w1 [E1 [D1 [F1 [Di1 [Wr1 _]]]]]].
  rewrite E1.
  destruct (mkdir_p_ok w1 (parent p ++ [t "ArcTuner_Profiles"])
              ltac:(rewrite F1; exact Hpr) ltac:(rewrite parent_snoc; apply Di1, Hd)
              ltac:(rewrite parent_snoc; apply Wr1, Hw))
    as [w2 [E2 [D2 [F2 [Di2 _]]]]].
  rewrite E2; eexists; split; [reflexivity|].
  cbn [config_path backup_dir profiles_dir world current_config with_world].
  split; [reflexivity|split; [reflexivity|split; [reflexivity|]]].
  split; [apply Di2, D1|split; [exact D2|split; [rewrite F2; exact F1|reflexivity]]].
Qed.

Lemma initialize_creates_dirs_witness :
  exists st', initialize (new_ConfigManager (game_world (t "GameUserSettings.ini") true)) []
                (Some (game_dir ++ [t "GameUserSettings.ini"])) = (Some true, st')
    /\ backup_dir st' = Some game_backups.
Proof.
  destruct (initialize_creates_dirs (new_ConfigManager (game_world (t "GameUserSettings.ini") true)) []
              (game_dir ++ [t "GameUserSettings.ini"]) eq_refl eq_refl eq_refl eq_refl eq_refl)
    as [st' [E [_ [Hb _]]]].
  exists st'; split; [exact E|exact Hb].
Defined.

(** X12.  When a regular file named [ArcTuner_Backups] sits next to the
    config file, [initialize] does not return [False]: the [mkdir] raises
    out of it, after [config_path], [backup_dir] and [profiles_dir] have
    been set and before anything is created. *)
Theorem initialize_raises_on_file (st : ConfigManager) (localappdata p : path) (x : text)
  (Hp : path_exists (world st) p = true)
  (Hf : files (world st) (parent p ++ [t "ArcTuner_Backups"]) = Some x)
  (Hnd : is_dir (world st) (parent p ++ [t "ArcTuner_Backups"]) = false) :
  initialize st localappdata (Some p)
  = (None, mkCM (world st) (Some p) (Some (parent p ++ [t "ArcTuner_Backups"]))
                (Some (parent p ++ [t "ArcTuner_Profiles"])) (current_config st)).
Proof.
  unfold initialize; rewrite Hp; cbn [negb]; rewrite join_backups, join_profiles.
  rewrite (mkdir_p_file _ _ _ Hf Hnd); reflexivity.
Qed.

Lemma initialize_raises_on_file_witness :
  fst (initialize (new_ConfigManager backups_clash_world) []
         (Some (game_dir ++ [t "GameUserSettings.ini"]))) = None
  /\ backup_dir (snd (initialize (new_ConfigManager backups_clash_world) []
                        (Some (game_dir ++ [t "GameUserSettings.ini"])))) = Some game_backups.
Proof.
  rewrite (initialize_raises_on_file (new_ConfigManager backups_clash_world) []
             (game_dir ++ [t "GameUserSettings.ini"]) [] eq_refl eq_refl eq_refl).
  split; reflexivity.
Defined.

(** X13.  After [initialize] succeeds on a config file [D/f] whose
    directory is writable and holds no [ArcTuner_] entries yet, a
    [create_backup tag] copies the config to
    [D/ArcTuner_Backups/GameUserSettings_<stamp>[_<tag>].ini] and returns
    that path, with the config file left as it was (when [resolve]
    identifies no two paths and neither stamp nor tag contains ['/']). *)
Theorem initialize_then_create_backup (st : ConfigManager) (localappdata p : path) (c tag : text)
  (Hc : files (world st) p = Some c)
  (Hd : is_dir (world st) (parent p) = true) (Hw : writable (world st) (parent p) = true)
  (Hb : path_exists (world st) (parent p ++ [t "ArcTuner_Backups"]) = false)
  (Hpr : path_exists (world st) (parent p ++ [t "ArcTuner_Profiles"]) = false)
  (Hin : forall q, is_dir (world st) (parent p ++ [t "ArcTuner_Backups"; q]) = false)
  (Hs : existsb (char_eqb "/"%char) (clock_stamp (world st) ++ tag) = false)
  (Hr : forall a b, resolve (world st) a = resolve (world st) b -> a = b) :
  let bp := parent p ++ [t "ArcTuner_Backups"; t "GameUserSettings_" ++ clock_stamp (world st)
                         ++ (match tag with [] => [] | _ => "_"%char :: tag end) ++ t ".ini"] in
  exists st1 st2, initialize st localappdata (Some p) = (Some true, st1)
    /\ create_backup st1 tag = (Some bp, st2)
    /\ files (world st2) bp = Some c /\ files (world st2) p = Some c.
Proof.
  intro bp.
  set (w := world st) in *.
  set (bd := parent p ++ [t "ArcTuner_Backups"]) in *.
  set (pd := parent p ++ [t "ArcTuner_Profiles"]) in *.
  set (bname := t "GameUserSettings_" ++ clock_stamp w
                ++ (match tag with [] => [] | _ => "_"%char :: tag end) ++ t ".ini") in *.
  assert (Ebp : bp = bd ++ [bname]) by (unfold bp, bd; rewrite <- app_assoc; reflexivity).
  assert (Hpd_bd : pd <> bd) by (apply snoc_neq; discriminate).
  assert (Hbp_bd : bp <> bd) by (rewrite Ebp; intro E; apply (f_equal (@List.length text)) in E;
                                 rewrite length_app in E; cbn in E; lia).
  assert (Hbp_pd : bp <> pd) by (rewrite Ebp; intro E; apply (f_equal (@List.length text)) in E;
                                 unfold pd, bd in E; rewrite !length_app in E; cbn in E; lia).
  assert (Hbp_p : bp <> p) by (intro E; apply (f_equal (@List.length text)) in E;
                               unfold bp in E; rewrite length_app in E; cbn in E;
                               pose proof (length_parent p); lia).
  unfold path_exists in Hb, Hpr.
  destruct (files w bd) eqn:Fb; [discriminate|]; destruct (files w pd) eqn:Fp; [discriminate|].
  assert (Ew : initialize st localappdata (Some p)
               = (Some true, mkCM (add_dir (add_dir w bd) pd) (Some p) (Some bd) (Some pd)
                                  (current_config st))).
  { unfold initialize; fold w.
    replace (path_exists w p) with true by (unfold path_exists; rewrite Hc; reflexivity).
    cbn [negb]; rewrite join_backups, join_profiles; fold bd pd.
    rewrite (mkdir_p_made w bd _ (os_mkdir_new w bd
               ltac:(unfold path_exists; rewrite Fb; exact Hb)
               ltac:(unfold bd; rewrite parent_snoc; exact Hd)
               ltac:(unfold bd; rewrite parent_snoc; exact Hw))).
    rewrite (mkdir_p_made (add_dir w bd) pd _ (os_mkdir_new (add_dir w bd) pd
               ltac:(unfold path_exists; cbn [files is_dir add_dir]; rewrite Fp, (path_eqb_neq _ _ Hpd_bd);
                     exact Hpr)
               ltac:(unfold pd; rewrite parent_snoc; cbn [is_dir add_dir]; rewrite Hd, orb_true_r;
                     reflexivity)
               ltac:(unfold pd; rewrite parent_snoc; cbn [writable add_dir]; rewrite Hw, orb_true_r;
                     reflexivity))).
    reflexivity. }
  set (w2 := add_dir (add_dir w bd) pd) in Ew.
  assert (Hnd : is_dir w2 bp = false).
  { cbn [w2 is_dir add_dir]; rewrite (path_eqb_neq _ _ Hbp_pd), (path_eqb_neq _ _ Hbp_bd).
    unfold bp; apply Hin. }
  assert (Hwr : write_file w2 bp c = Some (set_file w2 bp (Some c))).
  { unfold write_file; rewrite Ebp, parent_snoc, <- Ebp, Hnd.
    cbn [w2 is_dir writable add_dir]; rewrite (path_eqb_neq bd pd (not_eq_sym Hpd_bd)), path_eqb_refl.
    reflexivity. }
  exists (mkCM w2 (Some p) (Some bd) (Some pd) (current_config st)).
  exists (mkCM (set_file w2 bp (Some c)) (Some p) (Some bd) (Some pd) (current_config st)).
  split; [exact Ew|].
  split.
  - unfold create_backup; cbn [config_path backup_dir world].
    replace (path_exists w2 p) with true by (unfold path_exists; cbn [w2 files add_dir]; rewrite Hc; reflexivity).
    cbn [negb]; cbv zeta. change (clock_stamp w2) with (clock_stamp w).
    rewrite (backup_join bd (clock_stamp w) tag Hs); fold bname; rewrite <- Ebp.
    unfold copy2; cbn [w2 files add_dir]; rewrite Hc; fold w2; rewrite Hnd.
    change (resolve w2) with (resolve w).
    destruct (path_eqb (resolve w p) (resolve w bp)) eqn:Er;
      [apply path_eqb_eq, Hr in Er; symmetry in Er; contradiction|].
    rewrite Hwr; reflexivity.
  - cbn [world]; split; [apply set_file_same|].
    rewrite set_file_other by (intro E; apply Hbp_p; symmetry; exact E).
    cbn [w2 files add_dir]; exact Hc.
Qed.

Lemma initialize_then_create_backup_witness :
  exists st1 st2,
    initialize (new_ConfigManager fresh_game_world) [] (Some (game_dir ++ [t "GameUserSettings.ini"]))
    = (Some true, st1)
    /\ create_backup st1 (t "manual")
       = (Some (game_backups ++ [t "GameUserSettings_20251015_120000_manual.ini"]), st2)
    /\ files (world st2) (game_backups ++ [t "GameUserSettings_20251015_120000_manual.ini"])
       = Some (t "[S]
k=live
").
Proof.
  assert (Hin : forall q, is_dir fresh_game_world (parent (game_dir ++ [t "GameUserSettings.ini"])
                                                   ++ [t "ArcTuner_Backups"; q]) = false).
  { intro q; cbn [is_dir fresh_game_world]; apply path_eqb_neq; intro E.
    apply (f_equal (@List.length text)) in E; discriminate. }
  destruct (initialize_then_create_backup (new_ConfigManager fresh_game_world) []
              (game_dir ++ [t "GameUserSettings.ini"]) (t "[S]
k=live
") (t "manual") eq_refl eq_refl eq_refl eq_refl eq_refl Hin eq_refl (fun a b H => H))
    as [st1 [st2 [E1 [E2 [E3 _]]]]].
  exists st1, st2; split; [exact E1|split; [exact E2|exact E3]].
Defined.

(** X14.  When the save of [_save_config] succeeds after its [pre_save]
    backup was made to a regular file [bp] other than the config file,
    [bp] holds the config file's contents from before the save, and the
    config file holds the serialized new config. *)
Theorem save_config_keeps_pre_save_backup (st : ConfigManager) (values : list (text * text))
  (p bp : path) (st1 st' : ConfigManager)
  (Hp : config_path st = Some p)
  (Hb : create_backup st (t "pre_save") = (Some bp, st1))
  (Hnd : is_dir (world st) bp = false) (Hne : bp <> p)
  (Hs : save_config st values = Some (Ret (true, st'))) :
  files (world st') bp = files (world st) p
  /\ files (world st') p = Some (serialize (current_config st')).
Proof.
  destruct (create_backup_some _ _ _ _ Hb Hnd) as [p' [c [Hp' [Hc ->]]]].
  rewrite Hp in Hp'; injection Hp' as <-.
  unfold save_config in Hs; rewrite Hp, Hb in Hs; cbn [snd] in Hs; injection Hs as Hs.
  set (st2 := fold_left _ values _) in Hs.
  destruct (fold_set_setting_fields values
              (with_world st (set_file (world st) bp (Some c)))) as [Hw2 Hp2].
  fold st2 in Hw2, Hp2; cbn [world config_path with_world] in Hw2, Hp2.
  unfold write_config in Hs; rewrite Hp2, Hp in Hs.
  destruct (negb _); [discriminate|].
  destruct (write_file (world st2) p (serialize (current_config st2))) as [w|] eqn:Ew; [|discriminate].
  injection Hs as <-; cbn [world current_config with_config with_world].
  split.
  - unfold write_file in Ew; destruct (_ && _ && _); [|discriminate].
    injection Ew as <-; rewrite set_file_other by exact Hne.
    rewrite Hw2, set_file_same, Hc; reflexivity.
  - exact (write_file_spec _ _ _ _ Ew).
Qed.

Lemma save_config_keeps_pre_save_backup_witness :
  let st := game_manager (t "GameUserSettings.ini") true in
  let bp := game_backups ++ [t "GameUserSettings_20251015_120000_pre_save.ini"] in
  exists st', save_config st [(t "DLSSMode", t "Quality")] = Some (Ret (true, st'))
    /\ files (world st') bp = Some (t "[S]
k=live
")
    /\ files (world st') (game_dir ++ [t "GameUserSettings.ini"])
       = Some (t "[/Script/EmbarkUserSettings.EmbarkGameUserSettings]
DLSSMode=Quality

").
Proof.
  intros st bp.
  set (st' := match save_config st [(t "DLSSMode", t "Quality")] with
              | Some (Ret (_, s)) => s | _ => st end).
  assert (Hs : save_config st [(t "DLSSMode", t "Quality")] = Some (Ret (true, st'))) by reflexivity.
  destruct (save_config_keeps_pre_save_backup st [(t "DLSSMode", t "Quality")]
              (game_dir ++ [t "GameUserSettings.ini"]) bp (snd (create_backup st (t "pre_save"))) st'
              eq_refl eq_refl eq_refl ltac:(vm_compute; discriminate) Hs) as [H1 H2].
  exists st'; split; [exact Hs|split; [rewrite H1; reflexivity|rewrite H2; reflexivity]].
Defined.

(** X15.  When [restore_backup bp] succeeds, the config path is not a
    directory, and the [pre_restore] backup, if one was made, went to a
    regular file other than [bp] and the config file: the config file
    holds what [bp] held, and that backup holds the config file's
    contents from before the restore. *)
Theorem restore_backup_copies (st : ConfigManager) (bp p : path) (st' : ConfigManager)
  (Hr : restore_backup st bp = (true, st'))
  (Hp : config_path st = Some p) (Hnd : is_dir (world st) p = false)
  (Hpre : forall bp0 st0, create_backup st (t "pre_restore") = (Some bp0, st0) ->
          bp0 <> bp /\ bp0 <> p /\ is_dir (world st) bp0 = false) :
  files (world st') p = files (world st) bp
  /\ (forall bp0 st0, create_backup st (t "pre_restore") = (Some bp0, st0) ->
        files (world st') bp0 = files (world st) p).
Proof.
  unfold restore_backup in Hr.
  destruct (negb (path_exists (world st) bp)); [discriminate|].
  destruct (negb (validate_path (world st) bp)); [discriminate|].
  destruct (create_backup st (t "pre_restore")) as [[bp0|] st1] eqn:Ecb; cbn [snd] in Hr.
  - destruct (Hpre bp0 st1 eq_refl) as [H1 [H2 H3]].
    destruct (create_backup_some _ _ _ _ Ecb H3) as [p' [c [Hp' [Hc ->]]]].
    rewrite Hp in Hp'; injection Hp' as <-.
    cbn [config_path world with_world] in Hr; rewrite Hp in Hr.
    destruct (copy2 _ bp p) as [w|] eqn:Ec; [|discriminate].
    injection Hr as <-; cbn [world with_world].
    destruct (copy2_spec _ _ _ _ Ec ltac:(exact Hnd)) as [cb [Hcb [-> _]]].
    rewrite set_file_other in Hcb by (intro E; apply H1; symmetry; exact E).
    split; [rewrite set_file_same; symmetry; exact Hcb|].
    intros bp1 st0 E; injection E as <- _.
    rewrite set_file_other by exact H2; rewrite set_file_same; symmetry; exact Hc.
  - pose proof (create_backup_none _ _ _ Ecb) as E1; subst st1.
    rewrite Hp in Hr; destruct (copy2 _ bp p) as [w|] eqn:Ec; [|discriminate].
    injection Hr as <-; cbn [world with_world].
    destruct (copy2_spec _ _ _ _ Ec Hnd) as [cb [Hcb [-> _]]].
    split; [rewrite set_file_same; symmetry; exact Hcb|].
    intros bp1 st0 E; discriminate.
Qed.

Lemma restore_backup_copies_witness :
  let st := game_manager (t "GameUserSettings.ini") true in
  exists st', restore_backup st old_ini = (true, st')
    /\ files (world st') (game_dir ++ [t "GameUserSettings.ini"]) = Some (t "[S]
k=old
").
Proof.
  intro st.
  set (st' := snd (restore_backup st old_ini)).
  assert (Hr : restore_backup st old_ini = (true, st')) by reflexivity.
  assert (Hpre : forall bp0 st0, create_backup st (t "pre_restore") = (Some bp0, st0) ->
                   bp0 <> old_ini /\ bp0 <> game_dir ++ [t "GameUserSettings.ini"]
                   /\ is_dir (world st) bp0 = false).
  { intros bp0 st0 E; vm_compute in E; injection E as <- _.
    split; [vm_compute; discriminate|split; [vm_compute; discriminate|reflexivity]]. }
  exists st'; split; [exact Hr|].
  rewrite (proj1 (restore_backup_copies st old_ini (game_dir ++ [t "GameUserSettings.ini"]) st'
                    Hr eq_refl eq_refl Hpre)).
  reflexivity.
Defined.
